(** * MemGPT hierarchical memory manager: a shallow embedding

    The development follows the Python sources module by module:
    - [Py]            the fragment of Python values, strings and exceptions the
                      sources rely on;
    - [TokenCounter]  [utils/token_counter.py];
    - [CoreMemory]    [memory/core_memory.py];
    - [QueueManager]  [memory/queue_manager.py] together with the recall store
                      it writes to ([persistence/sqlite_store.py]);
    - [FunctionExecutor] [functions/executor.py];
    - [MemGPTAgent]   the heartbeat loop of [agents/agent.py].

    Token counts and [max_tokens] are Python ints, modelled as [Z]. The two
    thresholds are Python floats, modelled as IEEE 754 binary64 numbers with
    the interpreter's rounding ([Py.float]). *)

From Stdlib Require Import ZArith QArith Ascii Lia SpecFloat.
From stdpp Require Import base strings list gmap pretty.

Set Default Proof Using "Type".

(* ===================================================================== *)
(** * Python values, strings and exceptions                               *)
(* ===================================================================== *)

Module Py.

(** JSON-like Python values: what a message field or a tool argument can
    hold. Dictionaries keep insertion order, as Python's do. *)
#[warnings="-register-all"]
Inductive value : Type :=
  | VNone
  | VBool (b : bool)
  | VInt (n : Z)
  | VFloat (x : Q)
  | VStr (s : string)
  | VList (items : list value)
  | VDict (items : list (string * value)).

Abbreviation dict := (list (string * value)).

(** Builtins of the interpreter that the sources call but do not define:
    [str(x)] and [json.dumps(x, indent=2)]. *)
Class Builtins := {
  str : value -> string;
  json_dumps : value -> string;
}.

(** Truthiness of a string: [if not text]. *)
Definition str_truthy (s : string) : bool :=
  match s with EmptyString => false | String _ _ => true end.

(** Truthiness of arbitrary values ([if output:], [if metadata:]). *)
Definition truthy (v : value) : bool :=
  match v with
  | VNone => false
  | VBool b => b
  | VInt n => negb (n =? 0)%Z
  | VFloat x => negb (Qeq_bool x 0)
  | VStr s => str_truthy s
  | VList l => match l with [] => false | _ => true end
  | VDict d => match d with [] => false | _ => true end
  end.

(** [d.get(k)] on an insertion-ordered dictionary. *)
Fixpoint dict_get (d : dict) (k : string) : option value :=
  match d with
  | [] => None
  | (k', v) :: d' => if String.eqb k' k then Some v else dict_get d' k
  end.

(** [s[n:]] for [0 <= n]. *)
Fixpoint str_drop (n : nat) (s : string) : string :=
  match n, s with
  | O, _ => s
  | S n', EmptyString => EmptyString
  | S n', String _ s' => str_drop n' s'
  end.

(** [s[:n]] for [0 <= n]. *)
Fixpoint str_take (n : nat) (s : string) : string :=
  match n, s with
  | O, _ => EmptyString
  | S n', EmptyString => EmptyString
  | S n', String c s' => String c (str_take n' s')
  end.

(** [s.startswith(p)]. *)
Fixpoint startswith (p s : string) : bool :=
  match p, s with
  | EmptyString, _ => true
  | String _ _, EmptyString => false
  | String a p', String b s' => if Ascii.eqb a b then startswith p' s' else false
  end.

(** [sub in s]: some position of [s] starts an occurrence of [sub]. *)
Fixpoint contains (sub s : string) : bool :=
  if startswith sub s then true
  else match s with
       | EmptyString => false
       | String _ s' => contains sub s'
       end.

(** [s.replace(old, new, 1)]: the leftmost occurrence is replaced, the text
    is returned unchanged when there is none. *)
Fixpoint replace_once (old new s : string) : string :=
  if startswith old s then new +:+ str_drop (String.length old) s
  else match s with
       | EmptyString => EmptyString
       | String c s' => String c (replace_once old new s')
       end.

(** [s.upper()] on the ASCII letters. *)
Definition upper_char (c : Ascii.ascii) : Ascii.ascii :=
  let n := Ascii.nat_of_ascii c in
  if (97 <=? n)%nat && (n <=? 122)%nat then Ascii.ascii_of_nat (n - 32) else c.

Fixpoint upper (s : string) : string :=
  match s with
  | EmptyString => EmptyString
  | String c s' => String (upper_char c) (upper s')
  end.

(** ["sep".join(lines)]. *)
Fixpoint join (sep : string) (lines : list string) : string :=
  match lines with
  | [] => EmptyString
  | [l] => l
  | l :: rest => l +:+ sep +:+ join sep rest
  end.

(** [l[:n]] for any integer [n]: a negative bound counts from the end. *)
Definition slice_to {A} (l : list A) (n : Z) : list A :=
  if (0 <=? n)%Z then take (Z.to_nat n) l
  else take (length l - Z.to_nat (- n)) l.

(** [l[a:b]] for [0 <= a], [0 <= b]. *)
Definition slice {A} (l : list A) (a b : nat) : list A :=
  take (b - a) (drop a l).

(** The exceptions the sources raise or catch. Every constructor is a
    subclass of [Exception]; [OtherError] stands for whatever a storage
    backend raises. *)
Inductive exn : Type :=
  | TypeError (msg : string)
  | ValueError (msg : string)
  | KeyError (msg : string)
  | OtherError (msg : string).

Definition exn_text (e : exn) : string :=
  match e with
  | TypeError m | ValueError m | KeyError m | OtherError m => m
  end.

Definition is_TypeError (e : exn) : bool :=
  match e with TypeError _ => true | _ => false end.

(** A computation that returns or raises. *)
Inductive result (A : Type) : Type :=
  | Ok (a : A)
  | Raise (e : exn).
Arguments Ok {A} a.
Arguments Raise {A} e.

Definition bind {A B} (r : result A) (k : A -> result B) : result B :=
  match r with
  | Ok a => k a
  | Raise e => Raise e
  end.

(** A plain rendering of values, in the shape of Python's [repr] without
    escape sequences; it instantiates [Builtins] for concrete runs. *)
Fixpoint repr (v : value) : string :=
  match v with
  | VNone => "None"
  | VBool true => "True"
  | VBool false => "False"
  | VInt n => pretty n
  | VFloat x => pretty (Qnum x) +:+ "/" +:+ pretty (Zpos (Qden x))
  | VStr s => "'" +:+ s +:+ "'"
  | VList l => "[" +:+ join ", " (map repr l) +:+ "]"
  | VDict d =>
      "{" +:+ join ", " (map (fun kv => "'" +:+ fst kv +:+ "': " +:+ repr (snd kv)) d)
          +:+ "}"
  end.

Definition plain_str (v : value) : string :=
  match v with VStr s => s | _ => repr v end.

(** [f"{v}"]: a string is interpolated as it is, anything else through
    [str]. *)
Definition format `{Builtins} (v : value) : string :=
  match v with VStr s => s | _ => str v end.

(** [s * n] on strings and lists. *)
Fixpoint str_repeat (s : string) (n : nat) : string :=
  match n with
  | O => EmptyString
  | S n' => s +:+ str_repeat s n'
  end.

Fixpoint list_repeat {A} (l : list A) (n : nat) : list A :=
  match n with
  | O => []
  | S n' => l ++ list_repeat l n'
  end.

(** [v * n] for an int [n]. *)
Definition mul_int (v : value) (n : Z) : result value :=
  match v with
  | VInt m => Ok (VInt (m * n))
  | VBool b => Ok (VInt ((if b then 1 else 0) * n))
  | VFloat x => Ok (VFloat (x * inject_Z n))
  | VStr s => Ok (VStr (str_repeat s (Z.to_nat n)))
  | VList l => Ok (VList (list_repeat l (Z.to_nat n)))
  | VNone | VDict _ =>
      Raise (TypeError "unsupported operand type(s) for *")
  end.

(** [for x in xs] where each step may raise. *)
Fixpoint map_result {A B} (f : A -> result B) (xs : list A) : result (list B) :=
  match xs with
  | [] => Ok []
  | x :: xs' => bind (f x) (fun y => bind (map_result f xs') (fun ys => Ok (y :: ys)))
  end.

Definition plain_builtins : Builtins :=
  {| str := plain_str; json_dumps := repr |}.

(** Python's [float]: IEEE 754 binary64, that is 53 bits of precision and
    exponents below 1024. *)
Definition float : Type := spec_float.

(** [float(n)] for an int [n], rounded to nearest, ties to even. Where the
    result here is an infinity the interpreter raises [OverflowError]
    instead of returning; [fits_float] tells the two cases apart. *)
Definition float_of_int (n : Z) : float := binary_normalize 53 1024 n 0 false.

Definition fits_float (n : Z) : bool :=
  match float_of_int n with
  | S754_infinity _ => false
  | _ => true
  end.

(** [x * y] and [x / y] on floats. *)
Definition float_mul (x y : float) : float := SFmul 53 1024 x y.
Definition float_div (x y : float) : float := SFdiv 53 1024 x y.

(** [n * x] for an int [n] and a float [x]: the int is converted first. *)
Definition int_mul_float (n : Z) (x : float) : float :=
  float_mul (float_of_int n) x.

(** The float a decimal literal such as [0.7] denotes: the one nearest to
    the rational written, here for a numerator and a denominator that are
    floats themselves (as all below [2^53] are). *)
Definition float_literal (q : Q) : float :=
  float_div (float_of_int (Qnum q)) (float_of_int (Zpos (Qden q))).

(** The number a finite float stands for. *)
Definition float_value (x : float) : option Q :=
  match x with
  | S754_zero _ => Some 0%Q
  | S754_finite s m e => Some (inject_Z (cond_Zopp s (Zpos m)) * 2 ^ e)%Q
  | S754_infinity _ | S754_nan => None
  end.

(** [n > x] and [n >= x] for an int [n] and a float [x]. The interpreter
    compares the two numbers exactly, without converting the int; a nan
    compares false with everything. *)
Definition int_gt_float (n : Z) (x : float) : bool :=
  match x with
  | S754_nan => false
  | S754_infinity s => s
  | _ => match float_value x with
         | Some q => negb (Qle_bool (inject_Z n) q)
         | None => false
         end
  end.

Definition int_ge_float (n : Z) (x : float) : bool :=
  match x with
  | S754_nan => false
  | S754_infinity s => s
  | _ => match float_value x with
         | Some q => Qle_bool q (inject_Z n)
         | None => false
         end
  end.

End Py.

(* ===================================================================== *)
(** * utils/token_counter.py                                              *)
(* ===================================================================== *)

Module TokenCounter.
Import Py.
Local Open Scope Z_scope.

(** The tiktoken encoding held in [self.encoding]: the sources only call
    [encode] and [decode] on it. *)
Record TokenCounter := {
  tk_encode : string -> list Z;
  tk_decode : list Z -> string;
}.

Section Counting.
Context `{Builtins}.
Variable self : TokenCounter.

Definition count_tokens (text : string) : Z :=
  if negb (str_truthy text) then 0
  else Z.of_nat (length (tk_encode self text)).

(** The innermost loop, over the items of a list-valued field. *)
Definition count_item (num_tokens : Z) (item : value) : Z :=
  match item with
  | VStr s => num_tokens + count_tokens s
  | VDict _ => num_tokens + count_tokens (str item)
  | _ => num_tokens
  end.

(** The loop over [message.items()]. *)
Definition count_field (num_tokens : Z) (kv : string * value) : Z :=
  match snd kv with
  | VStr s => num_tokens + count_tokens s
  | VList items => fold_left count_item items num_tokens
  | VDict _ => num_tokens + count_tokens (str (snd kv))
  | _ => num_tokens
  end.

(** The loop over [messages]. *)
Definition count_message (num_tokens : Z) (message : dict) : Z :=
  fold_left count_field message (num_tokens + 4).

Definition count_message_tokens (messages : list dict) : Z :=
  match messages with
  | [] => 0
  | _ => fold_left count_message messages 0 + 2
  end.

Definition estimate_tokens_remaining (messages : list dict) (max_tokens : Z) : Z :=
  Z.max 0 (max_tokens - count_message_tokens messages).

Definition truncate_text (text : string) (max_tokens : Z) : string :=
  if negb (str_truthy text) then ""
  else
    let tokens := tk_encode self text in
    if Z.of_nat (length tokens) <=? max_tokens then text
    else tk_decode self (slice_to tokens max_tokens).

(** ** What the counter adds up, field by field *)

Definition item_tokens (item : value) : Z :=
  match item with
  | VStr s => count_tokens s
  | VDict _ => count_tokens (str item)
  | _ => 0
  end.

Definition field_tokens (v : value) : Z :=
  match v with
  | VStr s => count_tokens s
  | VList items => foldr (fun item acc => item_tokens item + acc) 0 items
  | VDict _ => count_tokens (str v)
  | _ => 0
  end.

Definition message_tokens (message : dict) : Z :=
  4 + foldr (fun kv acc => field_tokens (snd kv) + acc) 0 message.

Definition messages_tokens (messages : list dict) : Z :=
  foldr (fun m acc => message_tokens m + acc) 0 messages.

(** The count as the specification words it: per message 4 plus every
    string field counted and every list or map field stringified and
    counted, plus the primer 2. *)
Definition spec_field_tokens (v : value) : Z :=
  match v with
  | VStr s => count_tokens s
  | VList _ | VDict _ => count_tokens (str v)
  | _ => 0
  end.

Definition spec_count_messages (messages : list dict) : Z :=
  foldr (fun m acc =>
           4 + foldr (fun kv a => spec_field_tokens (snd kv) + a) 0 m + acc)
        0 messages + 2.

End Counting.

(** A tokenizer with one token per character, used for concrete runs. *)
Fixpoint char_codes (s : string) : list Z :=
  match s with
  | EmptyString => []
  | String c s' => Z.of_nat (Ascii.nat_of_ascii c) :: char_codes s'
  end.

Fixpoint of_char_codes (l : list Z) : string :=
  match l with
  | [] => EmptyString
  | n :: l' => String (Ascii.ascii_of_nat (Z.to_nat n)) (of_char_codes l')
  end.

Definition char_counter : TokenCounter :=
  {| tk_encode := char_codes; tk_decode := of_char_codes |}.

End TokenCounter.

(* ===================================================================== *)
(** * memory/core_memory.py                                               *)
(* ===================================================================== *)

Module CoreMemory.
Import Py.

(** The line feed of the Python literals ["\n"]. *)
Definition nl : string := String "010"%char EmptyString.

(** [self.sections]: section name to section text. *)
Record CoreMemory := { sections : gmap string string }.

(** [CoreMemory()] with the default sections. *)
Definition init : CoreMemory :=
  {| sections :=
       <["persona" := "I am MemGPT, an intelligent memory management system."]>
       (<["human" := "No information about the user yet."]> ∅) |}.

Definition get_section (self : CoreMemory) (section : string) : option string :=
  sections self !! section.

Definition append (self : CoreMemory) (section content : string)
  : bool * CoreMemory :=
  match sections self !! section with
  | None => (false, self)
  | Some current =>
      (true, {| sections := <[section := current +:+ nl +:+ content]> (sections self) |})
  end.

Definition replace (self : CoreMemory) (section old_content new_content : string)
  : bool * CoreMemory :=
  match sections self !! section with
  | None => (false, self)
  | Some current =>
      if negb (contains old_content current) then (false, self)
      else (true, {| sections :=
                       <[section := replace_once old_content new_content current]>
                       (sections self) |})
  end.

Definition create_section (self : CoreMemory) (section initial_content : string)
  : bool * CoreMemory :=
  match sections self !! section with
  | Some _ => (false, self)
  | None => (true, {| sections := <[section := initial_content]> (sections self) |})
  end.

Definition delete_section (self : CoreMemory) (section : string)
  : bool * CoreMemory :=
  match sections self !! section with
  | None => (false, self)
  | Some _ => (true, {| sections := delete section (sections self) |})
  end.

(** In how many positions of [s] an occurrence of [old] starts. *)
Fixpoint occurrences (old s : string) : nat :=
  (if startswith old s then 1 else 0) +
  match s with
  | EmptyString => 0
  | String _ s' => occurrences old s'
  end.

End CoreMemory.

(* ===================================================================== *)
(** * memory/queue_manager.py and the recall store it writes to           *)
(* ===================================================================== *)

Module QueueManager.
Import Py TokenCounter.
Export CoreMemory (nl).

(** A queue entry: the dictionary [{'role', 'content'}] with ['metadata']
    present only when [add_message] was given a non-empty one. *)
Record Message := {
  role : string;
  content : string;
  metadata : option dict;
}.

(** The dictionary the token counter iterates over. *)
Definition to_dict (m : Message) : dict :=
  [("role", VStr (role m)); ("content", VStr (content m))] ++
  match metadata m with
  | Some md => [("metadata", VDict md)]
  | None => []
  end.

(** A row of the [message_history] table; [timestamp] and [summary_id] are
    left to their column defaults by the queue manager. *)
Record Row := {
  row_id : Z;
  row_role : string;
  row_content : string;
  row_metadata : option string;
}.

(** What [_check_memory_pressure] did, recorded for statements about the
    calls made; the Python object has no such field. *)
Inductive event : Type :=
  | Warned
  | Evicted (k : nat).

Record QueueManager := {
  max_tokens : Z;
  token_counter : TokenCounter;
  recall_storage : list Row;
  summarize_func : option (string -> result string);
  warning_threshold : float;
  flush_threshold : float;
  queue : list Message;
  events : list event;
}.

Definition with_queue (self : QueueManager) (q : list Message) : QueueManager :=
  {| max_tokens := max_tokens self; token_counter := token_counter self;
     recall_storage := recall_storage self; summarize_func := summarize_func self;
     warning_threshold := warning_threshold self;
     flush_threshold := flush_threshold self;
     queue := q; events := events self |}.

Definition with_recall (self : QueueManager) (r : list Row) : QueueManager :=
  {| max_tokens := max_tokens self; token_counter := token_counter self;
     recall_storage := r; summarize_func := summarize_func self;
     warning_threshold := warning_threshold self;
     flush_threshold := flush_threshold self;
     queue := queue self; events := events self |}.

Definition log (self : QueueManager) (e : event) : QueueManager :=
  {| max_tokens := max_tokens self; token_counter := token_counter self;
     recall_storage := recall_storage self; summarize_func := summarize_func self;
     warning_threshold := warning_threshold self;
     flush_threshold := flush_threshold self;
     queue := queue self; events := events self ++ [e] |}.

Definition empty_summary : Message :=
  {| role := "system";
     content := "Conversation summary: No previous interactions.";
     metadata := None |}.

Definition warning_msg : Message :=
  {| role := "system";
     content := "System Alert: Memory pressure detected. Save important data immediately.";
     metadata := None |}.

(** [QueueManager(max_tokens, token_counter, recall_storage, summarize_func,
    warning_threshold, flush_threshold)]. *)
Definition init (max_tokens : Z) (token_counter : TokenCounter)
    (recall_storage : list Row) (summarize_func : option (string -> result string))
    (warning_threshold flush_threshold : float) : QueueManager :=
  {| max_tokens := max_tokens; token_counter := token_counter;
     recall_storage := recall_storage; summarize_func := summarize_func;
     warning_threshold := warning_threshold; flush_threshold := flush_threshold;
     queue := [empty_summary]; events := [] |}.

Section Methods.
Context `{Builtins}.

(** [SQLiteRecallStorage.insert_message(role, content, metadata=...)]:
    one row appended, its id the next of the AUTOINCREMENT column. *)
Definition next_id (store : list Row) : Z :=
  match last store with
  | Some r => (row_id r + 1)%Z
  | None => 1%Z
  end.

Definition insert_message (store : list Row) (role content : string)
    (metadata : option dict) : Z * list Row :=
  let metadata_json :=
    match metadata with
    | Some md => if truthy (VDict md) then Some (json_dumps (VDict md)) else None
    | None => None
    end in
  let id := next_id store in
  (id, store ++ [{| row_id := id; row_role := role; row_content := content;
                    row_metadata := metadata_json |}]).

Definition get_queue_size (self : QueueManager) : Z :=
  count_message_tokens (token_counter self) (map to_dict (queue self)).

Definition get_summary (self : QueueManager) : string :=
  match queue self with
  | m :: _ => content m
  | [] => ""
  end.

Definition _format_messages_for_summary (messages : list Message) : string :=
  join nl (map (fun msg => upper (role msg) +:+ ": " +:+ content msg) messages).

Definition fallback_summary (current_summary evicted_text : string) : string :=
  current_summary +:+ nl +:+ nl +:+ "Recent activity: "
    +:+ str_take 500 evicted_text +:+ "...".

Definition summary_prompt (current_summary evicted_text : string) : string :=
  "Summarize the following interaction based on the previous summary." +:+ nl +:+
  "Focus on key facts, decisions, and important information." +:+ nl +:+ nl +:+
  "Previous Summary:" +:+ nl +:+ current_summary +:+ nl +:+ nl +:+
  "New Interactions to Incorporate:" +:+ nl +:+ evicted_text +:+ nl +:+ nl +:+
  "Generate a concise updated summary:".

Definition _generate_summary (self : QueueManager)
    (current_summary evicted_text : string) : string :=
  match summarize_func self with
  | Some f =>
      match f (summary_prompt current_summary evicted_text) with
      | Ok new_summary => new_summary
      | Raise _ => fallback_summary current_summary evicted_text
      end
  | None => fallback_summary current_summary evicted_text
  end.

Definition _evict_messages (self : QueueManager) : QueueManager :=
  match queue self with
  | [] | [_] => self
  | summary :: _ =>
      let num_to_evict := Nat.max 1 ((length (queue self) - 1) / 3) in
      let current_summary := content summary in
      let evicted_messages := slice (queue self) 1 (num_to_evict + 1) in
      let evicted_text := _format_messages_for_summary evicted_messages in
      let new_summary := _generate_summary self current_summary evicted_text in
      let store :=
        fold_left (fun st msg =>
                     snd (insert_message st (role msg) (content msg) (metadata msg)))
                  evicted_messages (recall_storage self) in
      with_queue (with_recall (log self (Evicted num_to_evict)) store)
        ({| role := "system"; content := new_summary; metadata := None |}
           :: drop (num_to_evict + 1) (queue self))
  end.

(** The test on [self.queue[-1]] guarding the warning. *)
Definition is_pressure_message (m : Message) : bool :=
  String.eqb (role m) "system" && contains "Memory pressure" (content m).

Definition last_is_pressure_message (q : list Message) : bool :=
  match last q with
  | Some m => is_pressure_message m
  | None => false
  end.

(** [current_tokens > self.max_tokens * threshold] and [>=]: the product is
    a float, rounded; the comparison of the int with it is exact. *)
Definition above (tokens max_tokens : Z) (threshold : float) : bool :=
  int_gt_float tokens (int_mul_float max_tokens threshold).

Definition at_least (tokens max_tokens : Z) (threshold : float) : bool :=
  int_ge_float tokens (int_mul_float max_tokens threshold).

(** The second half of [_check_memory_pressure], reached when no warning
    was injected. *)
Definition flush_check (self : QueueManager) (current_tokens : Z)
  : bool * QueueManager :=
  if at_least current_tokens (max_tokens self) (flush_threshold self)
  then (false, _evict_messages self)
  else (false, self).

Definition _check_memory_pressure (self : QueueManager) : bool * QueueManager :=
  let current_tokens := get_queue_size self in
  if above current_tokens (max_tokens self) (warning_threshold self) then
    if negb (last_is_pressure_message (queue self))
    then (true, log (with_queue self (queue self ++ [warning_msg])) Warned)
    else flush_check self current_tokens
  else flush_check self current_tokens.

(** The dictionary [add_message] builds: ['metadata'] is set only for a
    non-empty one ([if metadata:]). *)
Definition make_message (role content : string) (metadata : option dict) : Message :=
  {| role := role; content := content;
     metadata := match metadata with
                 | Some md => if truthy (VDict md) then Some md else None
                 | None => None
                 end |}.

Definition add_message (self : QueueManager) (role content : string)
    (metadata : option dict) : bool * QueueManager :=
  let message := make_message role content metadata in
  _check_memory_pressure (with_queue self (queue self ++ [message])).

Definition clear_queue (self : QueueManager) (keep_summary : bool) : QueueManager :=
  match keep_summary, queue self with
  | true, m :: _ => with_queue self [m]
  | _, _ => with_queue self [empty_summary]
  end.

Definition set_summary (self : QueueManager) (summary : string) : QueueManager :=
  match queue self with
  | _ :: rest =>
      with_queue self ({| role := "system"; content := summary; metadata := None |} :: rest)
  | [] => with_queue self [{| role := "system"; content := summary; metadata := None |}]
  end.

(** The tokens of the queue, message by message. *)
Definition queue_tokens (self : QueueManager) (q : list Message) : Z :=
  messages_tokens (token_counter self) (map to_dict q).

(** The row [insert_message] writes for a message. *)
Definition row_of (id : Z) (m : Message) : Row :=
  {| row_id := id; row_role := role m; row_content := content m;
     row_metadata :=
       match metadata m with
       | Some md => if truthy (VDict md) then Some (json_dumps (VDict md)) else None
       | None => None
       end |}.

(** The operations a caller can apply to a queue manager, and a sequence
    of them run from a given state. *)
Inductive op : Type :=
  | Add (role content : string) (metadata : option dict)
  | Clear (keep_summary : bool)
  | SetSummary (summary : string)
  | Evict.

Definition apply (self : QueueManager) (o : op) : QueueManager :=
  match o with
  | Add r c md => snd (add_message self r c md)
  | Clear keep => clear_queue self keep
  | SetSummary s => set_summary self s
  | Evict => _evict_messages self
  end.

Definition run (self : QueueManager) (ops : list op) : QueueManager :=
  fold_left apply ops self.

(** An [Add] with the role [system] is the one way a caller can put a
    system message behind slot 0. *)
Definition adds_system (o : op) : bool :=
  match o with
  | Add r _ _ => String.eqb r "system"
  | _ => false
  end.

(** [get_queue]: a copy of the list. *)
Definition get_queue (self : QueueManager) : list Message := queue self.

(** [get_usage_percentage]: [min(1.0, current_tokens / self.max_tokens)],
    over the rationals; [None] is the [ZeroDivisionError] of a window of 0
    tokens. *)
Definition get_usage_percentage (self : QueueManager) : option Q :=
  if (max_tokens self =? 0)%Z then None
  else
    let ratio := (inject_Z (get_queue_size self) / inject_Z (max_tokens self))%Q in
    Some (if Qle_bool 1 ratio then 1%Q else ratio).

(** The conversation as the two tiers hold it together: the rows of the
    recall store, then the messages behind slot 0, each as its role and
    content. *)
Definition history (self : QueueManager) : list (string * string) :=
  map (fun r => (row_role r, row_content r)) (recall_storage self) ++
  map (fun m => (role m, content m)) (drop 1 (queue self)).

(** Slot 0 exists and is a system message. *)
Definition slot0_system (q : list Message) : Prop :=
  exists m rest, q = m :: rest /\ role m = "system".

(** Behind slot 0 the only system messages are injected warnings. *)
Definition only_warnings (q : list Message) : Prop :=
  Forall (fun m => role m = "system" -> m = warning_msg) (drop 1 q).

End Methods.

End QueueManager.

(* ===================================================================== *)
(** * functions/executor.py                                               *)
(* ===================================================================== *)

Module FunctionExecutor.
Import Py.
Export CoreMemory (nl).

(** What the two stores answer to the executor; either may raise. Their
    contents are not part of the executor's state here: what an insert
    leaves in the archival store is not followed. *)
Record Backends := {
  archival_insert : value -> result value;
  archival_search : value -> Z -> value -> result (list dict);
  search_messages : value -> Z -> value -> result (list dict);
}.

Record FunctionExecutor := {
  core_memory : CoreMemory.CoreMemory;
  backends : Backends;
  page_size : Z;
}.

Definition with_core_memory (self : FunctionExecutor) (cm : CoreMemory.CoreMemory)
  : FunctionExecutor :=
  {| core_memory := cm; backends := backends self; page_size := page_size self |}.

(** The parameters of a handler: the required ones, then those with a
    default value. *)
Record signature := {
  required : list string;
  optional : list (string * value);
}.

Definition has_key (k : string) (ks : list string) : bool :=
  existsb (String.eqb k) ks.

Section Handlers.
Context `{Builtins}.

(** The call of a handler with the keyword arguments [**arguments]: it fails with a [TypeError] when
    [arguments] is not a mapping, names a parameter the handler does not
    have, or omits a required one; the interpreter's wording of the three
    messages is abbreviated. *)
Definition bind_arguments (fname : string) (sig : signature) (arguments : value)
  : result dict :=
  match arguments with
  | VDict kwargs =>
      let params := required sig ++ map fst (optional sig) in
      match find (fun k => negb (has_key k params)) (map fst kwargs) with
      | Some k =>
          Raise (TypeError (fname +:+ "() got an unexpected keyword argument '"
                              +:+ k +:+ "'"))
      | None =>
          match List.filter (fun p => negb (has_key p (map fst kwargs))) (required sig) with
          | [] =>
              Ok (kwargs ++
                  List.filter (fun kv => negb (has_key (fst kv) (map fst kwargs)))
                         (optional sig))
          | missing =>
              Raise (TypeError (fname +:+ "() missing required positional arguments: "
                                  +:+ join ", " missing))
          end
      end
  | _ => Raise (TypeError (fname +:+ "() argument after ** must be a mapping"))
  end.

(** A bound parameter. *)
Definition arg (bound : dict) (name : string) : value :=
  default VNone (dict_get bound name).

Definition _send_message (self : FunctionExecutor) (bound : dict)
  : result value * FunctionExecutor :=
  (Ok (VDict [("status", VStr "message_sent"); ("content", arg bound "content")]),
   self).

(** [section not in self.sections] on an argument of any type: a list or a
    dictionary is unhashable, any other non-string is simply not a key. *)
Definition section_key (section : value) : result (option string) :=
  match section with
  | VList _ | VDict _ => Raise (TypeError "unhashable type")
  | VStr s => Ok (Some s)
  | _ => Ok None
  end.

(** [self.core_memory.append(section, content)] as the executor calls it,
    with arguments of any type. *)
Definition core_memory_append (cm : CoreMemory.CoreMemory) (section content : value)
  : result bool * CoreMemory.CoreMemory :=
  match section_key section with
  | Raise e => (Raise e, cm)
  | Ok None => (Ok false, cm)
  | Ok (Some s) =>
      let '(ok, cm') := CoreMemory.append cm s (format content) in (Ok ok, cm')
  end.

Definition _core_memory_append (self : FunctionExecutor) (bound : dict)
  : result value * FunctionExecutor :=
  let section := arg bound "section" in
  match core_memory_append (core_memory self) section (arg bound "content") with
  | (Raise e, _) => (Raise e, self)
  | (Ok true, cm') =>
      (Ok (VDict [("status", VStr "success");
                  ("message", VStr ("Appended to " +:+ format section));
                  ("section", section)]),
       with_core_memory self cm')
  | (Ok false, _) =>
      (Raise (ValueError ("Section '" +:+ format section +:+ "' does not exist")), self)
  end.

(** [self.core_memory.replace(section, old_content, new_content)] with
    arguments of any type: [old_content not in current] and
    [current.replace(...)] raise on a non-string operand. *)
Definition core_memory_replace (cm : CoreMemory.CoreMemory)
    (section old_content new_content : value)
  : result bool * CoreMemory.CoreMemory :=
  match section_key section with
  | Raise e => (Raise e, cm)
  | Ok None => (Ok false, cm)
  | Ok (Some s) =>
      match CoreMemory.sections cm !! s with
      | None => (Ok false, cm)
      | Some current =>
          match old_content with
          | VStr old =>
              if negb (contains old current) then (Ok false, cm)
              else match new_content with
                   | VStr new =>
                       let '(ok, cm') := CoreMemory.replace cm s old new in (Ok ok, cm')
                   | _ => (Raise (TypeError "replace() argument 2 must be str"), cm)
                   end
          | _ => (Raise (TypeError "'in <string>' requires string as left operand"), cm)
          end
      end
  end.

Definition _core_memory_replace (self : FunctionExecutor) (bound : dict)
  : result value * FunctionExecutor :=
  let section := arg bound "section" in
  match core_memory_replace (core_memory self) section
          (arg bound "old_content") (arg bound "new_content") with
  | (Raise e, _) => (Raise e, self)
  | (Ok true, cm') =>
      (Ok (VDict [("status", VStr "success");
                  ("message", VStr ("Replaced content in " +:+ format section));
                  ("section", section)]),
       with_core_memory self cm')
  | (Ok false, _) =>
      (Raise (ValueError ("Could not find old_content in section '"
                            +:+ format section +:+ "'")), self)
  end.

Definition _archival_memory_insert (self : FunctionExecutor) (bound : dict)
  : result value * FunctionExecutor :=
  (bind (archival_insert (backends self) (arg bound "content")) (fun doc_id =>
     Ok (VDict [("status", VStr "success");
                ("message", VStr "Content inserted into archival memory");
                ("document_id", doc_id)])),
   self).

(** [r['content']]. *)
Definition item (r : dict) (key : string) : result value :=
  match dict_get r key with
  | Some v => Ok v
  | None => Raise (KeyError ("'" +:+ key +:+ "'"))
  end.

Definition _archival_memory_search (self : FunctionExecutor) (bound : dict)
  : result value * FunctionExecutor :=
  let query := arg bound "query" in
  let page := arg bound "page" in
  (bind (mul_int page (page_size self)) (fun offset =>
   bind (archival_search (backends self) query (page_size self) offset) (fun results =>
   bind (map_result (fun r =>
           bind (item r "content") (fun c =>
             Ok (VDict [("content", c);
                        ("similarity", default (VFloat 0) (dict_get r "similarity"))])))
         results) (fun rendered =>
     Ok (VDict [("status", VStr "success"); ("query", query); ("page", page);
                ("results_count", VInt (Z.of_nat (length results)));
                ("results", VList rendered)])))),
   self).

Definition _conversation_search (self : FunctionExecutor) (bound : dict)
  : result value * FunctionExecutor :=
  let query := arg bound "query" in
  let page := arg bound "page" in
  (bind (mul_int page (page_size self)) (fun offset =>
   bind (search_messages (backends self) query (page_size self) offset) (fun results =>
   bind (map_result (fun r =>
           bind (item r "role") (fun ro =>
           bind (item r "content") (fun c =>
             Ok (VDict [("role", ro); ("content", c);
                        ("timestamp",
                         VStr (str (default (VStr "") (dict_get r "timestamp"))))]))))
         results) (fun rendered =>
     Ok (VDict [("status", VStr "success"); ("query", query); ("page", page);
                ("results_count", VInt (Z.of_nat (length results)));
                ("results", VList rendered)])))),
   self).

Definition handler : Type :=
  FunctionExecutor -> dict -> result value * FunctionExecutor.

(** [self.function_map], each method with its parameter list. *)
Definition function_map : list (string * (signature * handler)) :=
  [ ("send_message",
     ({| required := ["content"]; optional := [] |}, _send_message));
    ("core_memory_append",
     ({| required := ["section"; "content"]; optional := [] |}, _core_memory_append));
    ("core_memory_replace",
     ({| required := ["section"; "old_content"; "new_content"]; optional := [] |},
      _core_memory_replace));
    ("archival_memory_insert",
     ({| required := ["content"]; optional := [] |}, _archival_memory_insert));
    ("archival_memory_search",
     ({| required := ["query"]; optional := [("page", VInt 0)] |},
      _archival_memory_search));
    ("conversation_search",
     ({| required := ["query"]; optional := [("page", VInt 0)] |},
      _conversation_search)) ].

Fixpoint lookup_function (m : list (string * (signature * handler))) (name : string)
  : option (signature * handler) :=
  match m with
  | [] => None
  | (n, h) :: m' => if String.eqb n name then Some h else lookup_function m' name
  end.

(** Whether [except Exception] catches: every class of [exn] derives from
    [Exception]. *)
Definition is_Exception (e : exn) : bool :=
  match e with
  | TypeError _ | ValueError _ | KeyError _ | OtherError _ => true
  end.

(** The triple [(status, message, output)]; [None] is Python's [None]. *)
Definition reply : Type := string * string * option value.

(** [execute]: [Raise] in the result would be an exception escaping the
    [try] statement. *)
Definition execute (self : FunctionExecutor) (function_name : string)
    (arguments : value) : result reply * FunctionExecutor :=
  match lookup_function function_map function_name with
  | None => (Ok ("error", "Unknown function: " +:+ function_name, None), self)
  | Some (sig, h) =>
      let '(r, self') :=
        match bind_arguments function_name sig arguments with
        | Ok bound => h self bound
        | Raise e => (Raise e, self)
        end in
      match r with
      | Ok result =>
          (Ok ("success", "Function " +:+ function_name +:+ " executed successfully",
               Some result), self')
      | Raise e =>
          if is_TypeError e then
            (Ok ("error", "Invalid arguments for " +:+ function_name +:+ ": "
                          +:+ exn_text e, None), self')
          else if is_Exception e then
            (Ok ("error", "Error executing " +:+ function_name +:+ ": "
                          +:+ exn_text e, None), self')
          else (Raise e, self')
      end
  end.

(** The two ways the keys of an argument object can miss a handler's
    parameters. *)
Definition missing_argument (sig : signature) (kwargs : dict) : Prop :=
  exists p, p ∈ required sig /\ has_key p (map fst kwargs) = false.

Definition unexpected_argument (sig : signature) (kwargs : dict) : Prop :=
  exists k, k ∈ map fst kwargs /\
            has_key k (required sig ++ map fst (optional sig)) = false.

Definition should_continue_heartbeat (function_name : string) : bool :=
  negb (String.eqb function_name "send_message").

Definition format_function_result (function_name status message : string)
    (output : option value) : string :=
  let result_str :=
    "Function: " +:+ function_name +:+ nl +:+
    "Status: " +:+ status +:+ nl +:+
    "Message: " +:+ message +:+ nl in
  match output with
  | Some v =>
      if truthy v then
        match v with
        | VDict _ => result_str +:+ "Output: " +:+ json_dumps v
        | _ => result_str +:+ "Output: " +:+ format v
        end
      else result_str
  | None => result_str
  end.

End Handlers.

End FunctionExecutor.

(* ===================================================================== *)
(** * functions/schema.py                                                 *)
(* ===================================================================== *)

Module Schema.

(** An entry of [FUNCTION_SCHEMAS]: the tool name, the properties of its
    parameter object with their JSON types, and the required ones; the
    descriptions are left out. *)
Record schema := {
  name : string;
  properties : list (string * string);
  required : list string;
}.

Definition FUNCTION_SCHEMAS : list schema :=
  [ {| name := "send_message";
       properties := [("content", "string")];
       required := ["content"] |};
    {| name := "core_memory_append";
       properties := [("section", "string"); ("content", "string")];
       required := ["section"; "content"] |};
    {| name := "core_memory_replace";
       properties := [("section", "string"); ("old_content", "string");
                      ("new_content", "string")];
       required := ["section"; "old_content"; "new_content"] |};
    {| name := "archival_memory_insert";
       properties := [("content", "string")];
       required := ["content"] |};
    {| name := "archival_memory_search";
       properties := [("query", "string"); ("page", "integer")];
       required := ["query"] |};
    {| name := "conversation_search";
       properties := [("query", "string"); ("page", "integer")];
       required := ["query"] |} ].

Definition get_function_schemas : list schema := FUNCTION_SCHEMAS.

(** [get_openai_tools]: each schema wrapped as a tool of type
    ["function"]. *)
Definition get_openai_tools : list (string * schema) :=
  map (fun sch => ("function", sch)) FUNCTION_SCHEMAS.

(** An argument object conforms to a schema when it has every required
    property and no property the schema does not list. *)
Definition conforms (sch : schema) (kwargs : Py.dict) : Prop :=
  (forall p, p ∈ required sch -> p ∈ map fst kwargs) /\
  (forall k, k ∈ map fst kwargs -> k ∈ map fst (properties sch)).

End Schema.

(* ===================================================================== *)
(** * agents/agent.py: the heartbeat loop                                 *)
(* ===================================================================== *)

Module MemGPTAgent.
Import Py.

(** What the loop reads from a chat completion: the tool call that
    [parse_function_call] extracts (its arguments already through
    [json.loads], [{}] on a decode error), the message text and the finish
    reason of the first choice. A response on which [json.loads] raises
    anything but a decode error makes [step] raise and has no [Completion]
    here. *)
Record Completion := {
  tool_call : option (string * value);
  message_content : option string;
  finish_reason : string;
}.

(** [self.client.chat.completions.create(...)] returns or raises. The
    prompt is assembled from the core memory and the queue, so the client
    is a function of the two; the iteration number lets it answer the same
    prompt differently. *)
Definition Client : Type :=
  nat -> CoreMemory.CoreMemory -> list QueueManager.Message -> result Completion.

Record MemGPTAgent := {
  client : Client;
  queue_manager : QueueManager.QueueManager;
  function_executor : FunctionExecutor.FunctionExecutor;
  last_user_message : option string;
}.

Definition with_queue_manager (self : MemGPTAgent) (qm : QueueManager.QueueManager)
  : MemGPTAgent :=
  {| client := client self; queue_manager := qm;
     function_executor := function_executor self;
     last_user_message := last_user_message self |}.

Definition with_function_executor (self : MemGPTAgent)
    (fe : FunctionExecutor.FunctionExecutor) : MemGPTAgent :=
  {| client := client self; queue_manager := queue_manager self;
     function_executor := fe; last_user_message := last_user_message self |}.

(** The dictionary [step] returns. *)
Record Outcome := {
  status : string;
  message : value;
  function : option string;
  thought : option string;
  iterations : option nat;
}.

(** How the [while] statement is left, and after how many completions:
    by a [return], by [break], by its condition turning false, or by an
    exception that nothing catches. *)
Inductive loop_exit : Type :=
  | Return (iteration : nat) (o : Outcome)
  | Break (iteration : nat)
  | Exhausted (iteration : nat)
  | Raised (iteration : nat) (e : exn).

Definition max_iterations : nat := 10.

Section Step.
Context `{Builtins}.

Definition add (self : MemGPTAgent) (role content : string) : MemGPTAgent :=
  with_queue_manager self
    (snd (QueueManager.add_message (queue_manager self) role content None)).

(** The body of the loop on a response with a tool call. *)
Definition dispatch (self : MemGPTAgent) (iteration : nat)
    (function_name : string) (arguments : value)
  : option loop_exit * MemGPTAgent :=
  let '(r, fe) :=
    FunctionExecutor.execute (function_executor self) function_name arguments in
  match r with
  | Raise e => (Some (Raised iteration e), self)
  | Ok (status, msg, output) =>
      let result_text :=
        FunctionExecutor.format_function_result function_name status msg output in
      let self := with_function_executor self fe in
      let self :=
        add self "assistant"
          ("[Function Call: " +:+ function_name +:+ "(" +:+ format arguments +:+ ")]") in
      let self := add self "function" result_text in
      if String.eqb function_name "send_message" && String.eqb status "success" then
        let final_response :=
          match output with
          | Some (VDict d) => default (VStr "") (dict_get d "content")
          | _ => VStr ""
          end in
        (Some (Return iteration
                 {| status := "success"; message := final_response;
                    function := Some "send_message"; thought := None;
                    iterations := Some iteration |}), self)
      else if negb (FunctionExecutor.should_continue_heartbeat function_name) then
        (Some (Break iteration), self)
      else (None, self)
  end.

(** The body of the loop on a response without a tool call. *)
Definition monologue (self : MemGPTAgent) (iteration : nat) (c : Completion)
  : option loop_exit * MemGPTAgent :=
  let content :=
    match message_content c with
    | Some s => if str_truthy s then s else "[No response]"
    | None => "[No response]"
    end in
  let self := add self "assistant" content in
  if String.eqb (finish_reason c) "stop" then
    (Some (Return iteration
             {| status := "no_message";
                message := VStr "Agent finished without sending a message";
                function := None; thought := Some content;
                iterations := Some iteration |}), self)
  else (None, self).

(** [while iteration < max_iterations], entered with [remaining =
    max_iterations - iteration]. *)
Fixpoint heartbeat (remaining iteration : nat) (self : MemGPTAgent)
  : loop_exit * MemGPTAgent :=
  match remaining with
  | O => (Exhausted iteration, self)
  | S remaining' =>
      let iteration := S iteration in
      match client self iteration
              (FunctionExecutor.core_memory (function_executor self))
              (QueueManager.queue (queue_manager self)) with
      | Raise e =>
          let error_msg := "LLM API Error: " +:+ exn_text e in
          (Return iteration
             {| status := "error"; message := VStr error_msg;
                function := None; thought := None; iterations := None |},
           add self "system" error_msg)
      | Ok c =>
          let '(exit, self) :=
            match tool_call c with
            | Some (function_name, arguments) =>
                dispatch self iteration function_name arguments
            | None => monologue self iteration c
            end in
          match exit with
          | Some e => (e, self)
          | None => heartbeat remaining' iteration self
          end
      end
  end.

(** The user message is queued, then the loop runs. *)
Definition enter (self : MemGPTAgent) (user_message : option string) : MemGPTAgent :=
  match user_message with
  | Some m =>
      if str_truthy m then
        add {| client := client self; queue_manager := queue_manager self;
               function_executor := function_executor self;
               last_user_message := Some m |} "user" m
      else self
  | None => self
  end.

Definition step (self : MemGPTAgent) (user_message : option string)
  : result Outcome * MemGPTAgent :=
  let '(exit, self) := heartbeat max_iterations 0 (enter self user_message) in
  match exit with
  | Return _ o => (Ok o, self)
  | Break iteration | Exhausted iteration =>
      (Ok {| status := "max_iterations";
             message := VStr "Maximum iterations reached in heartbeat loop";
             function := None; thought := None; iterations := Some iteration |},
       self)
  | Raised _ e => (Raise e, self)
  end.


(** The agent together with the object its attribute [core_memory] is
    bound to: [None] while that is the object the executor was constructed
    with, [Some cm] once [reset] has bound the attribute to a new object,
    which the executor does not refer to. *)
Record Session := {
  agent : MemGPTAgent;
  rebound : option CoreMemory.CoreMemory;
}.

(** [reset]: a new [CoreMemory()] for the attribute, the queue cleared with
    its summary kept, the last user message forgotten. *)
Definition reset (s : Session) : Session :=
  {| agent :=
       {| client := client (agent s);
          queue_manager := QueueManager.clear_queue (queue_manager (agent s)) true;
          function_executor := function_executor (agent s);
          last_user_message := None |};
     rebound := Some CoreMemory.init |}.

(** [get_core_memory]: the sections of the object the attribute is bound
    to. *)
Definition get_core_memory (s : Session) : gmap string string :=
  match rebound s with
  | Some cm => CoreMemory.sections cm
  | None => CoreMemory.sections (FunctionExecutor.core_memory (function_executor (agent s)))
  end.

(** A tool call made through the agent's executor. *)
Definition call (s : Session) (function_name : string) (arguments : value) : Session :=
  {| agent :=
       with_function_executor (agent s)
         (snd (FunctionExecutor.execute (function_executor (agent s))
                 function_name arguments));
     rebound := rebound s |}.

(** The number of completions requested before the loop was left. *)
Definition completions (e : loop_exit) : nat :=
  match e with
  | Return n _ | Break n | Exhausted n | Raised n _ => n
  end.

End Step.

End MemGPTAgent.

(* ===================================================================== *)
(** * Concrete configurations                                             *)
(* ===================================================================== *)

Module Runs.
Import Py TokenCounter.

#[export] Instance builtins : Builtins := plain_builtins.

(** A queue manager over the one-token-per-character counter, an empty
    recall store and no summarizer; the thresholds are given as the decimal
    literals a caller would write. *)
Definition manager (max_tokens : Z) (warning flush : Q) : QueueManager.QueueManager :=
  QueueManager.init max_tokens char_counter [] None
    (float_literal warning) (float_literal flush).

Definition add (qm : QueueManager.QueueManager) (role content : string)
  : QueueManager.QueueManager :=
  snd (QueueManager.add_message qm role content None).

(** A window of 100 tokens with the default thresholds, and a window of
    1000 tokens warned from a tenth on. *)
Definition tight : QueueManager.QueueManager := manager 100 (7 # 10) (95 # 100).
Definition roomy : QueueManager.QueueManager := manager 1000 (1 # 10) (95 # 100).

(** [roomy] after a first message that is warned about. *)
Definition warned_once : QueueManager.QueueManager :=
  add roomy "user" "This message is long enough to cross the warning line.".

(** [tight] one short message below the warning threshold. *)
Definition nearly_full : QueueManager.QueueManager := add tight "user" "hi".

(** A queue of the summary and six messages. *)
Definition six_messages : QueueManager.QueueManager :=
  QueueManager.with_queue (manager 200 (7 # 10) (95 # 100))
    [QueueManager.empty_summary;
     QueueManager.make_message "user" "one" None;
     QueueManager.make_message "assistant" "two" None;
     QueueManager.make_message "user" "three" None;
     QueueManager.make_message "assistant" "four" None;
     QueueManager.make_message "user" "five" None;
     QueueManager.make_message "assistant" "six" None].

(** Stores that hold nothing. *)
Definition empty_backends : FunctionExecutor.Backends :=
  {| FunctionExecutor.archival_insert := fun _ => Ok (VStr "doc-1");
     FunctionExecutor.archival_search := fun _ _ _ => Ok [];
     FunctionExecutor.search_messages := fun _ _ _ => Ok [] |}.

Definition executor : FunctionExecutor.FunctionExecutor :=
  {| FunctionExecutor.core_memory := CoreMemory.init;
     FunctionExecutor.backends := empty_backends;
     FunctionExecutor.page_size := 5 |}.

(** A model whose every answer is the tool call [send_message] with the
    argument object [{}]. *)
Definition bare_send_message : MemGPTAgent.Client :=
  fun _ _ _ =>
    Ok {| MemGPTAgent.tool_call := Some ("send_message", VDict []);
          MemGPTAgent.message_content := None;
          MemGPTAgent.finish_reason := "tool_calls" |}.

(** A model that always calls [archival_memory_search]. *)
Definition always_search : MemGPTAgent.Client :=
  fun _ _ _ =>
    Ok {| MemGPTAgent.tool_call :=
            Some ("archival_memory_search", VDict [("query", VStr "x")]);
          MemGPTAgent.message_content := None;
          MemGPTAgent.finish_reason := "tool_calls" |}.

(** A model that answers with [send_message(content="hello")], one whose
    call fails, and one that thinks aloud and stops. *)
Definition says_hello : MemGPTAgent.Client :=
  fun _ _ _ =>
    Ok {| MemGPTAgent.tool_call :=
            Some ("send_message", VDict [("content", VStr "hello")]);
          MemGPTAgent.message_content := None;
          MemGPTAgent.finish_reason := "tool_calls" |}.



Definition agent (c : MemGPTAgent.Client) : MemGPTAgent.MemGPTAgent :=
  {| MemGPTAgent.client := c;
     MemGPTAgent.queue_manager := manager 8000 (7 # 10) (95 # 100);
     MemGPTAgent.function_executor := executor;
     MemGPTAgent.last_user_message := None |}.

(** A new agent, its attribute still bound to the executor's working
    context. *)
Definition session : MemGPTAgent.Session :=
  {| MemGPTAgent.agent := agent says_hello; MemGPTAgent.rebound := None |}.

(** A tokenizer with the units [a], [b], [c], [ab] and [bc] in which the
    merge [bc] has priority over [ab], as the merges of a byte-pair
    encoding have ranks; other characters are their own tokens. *)
Fixpoint merge_encode (s : string) : list Z :=
  match s with
  | EmptyString => []
  | String c s' =>
      match s' with
      | EmptyString => [Z.of_nat (nat_of_ascii c)]
      | String d s'' =>
          if Ascii.eqb c "a" && Ascii.eqb d "b" then
            match s'' with
            | String e _ =>
                if Ascii.eqb e "c" then Z.of_nat (nat_of_ascii c) :: merge_encode s'
                else 1000%Z :: merge_encode s''
            | EmptyString => [1000%Z]
            end
          else if Ascii.eqb c "b" && Ascii.eqb d "c" then 1001%Z :: merge_encode s''
          else Z.of_nat (nat_of_ascii c) :: merge_encode s'
      end
  end.

Fixpoint merge_decode (l : list Z) : string :=
  match l with
  | [] => EmptyString
  | n :: l' =>
      (if (n =? 1000)%Z then "ab"
       else if (n =? 1001)%Z then "bc"
       else String (ascii_of_nat (Z.to_nat n)) EmptyString) +:+ merge_decode l'
  end.

Definition merge_counter : TokenCounter :=
  {| tk_encode := merge_encode; tk_decode := merge_decode |}.

End Runs.

(* ===================================================================== *)
(** * Properties                                                          *)
(* ===================================================================== *)

(** ** Strings *)

Module PyFacts.
Import Py.
#[local] Arguments String.append !_ _ / : simpl nomatch.

Lemma append_nil_r (s : string) : s +:+ "" = s.
Proof. induction s as [|c s IH]; simpl; [done | by rewrite IH]. Qed.

Lemma append_assoc (a b c : string) : (a +:+ b) +:+ c = a +:+ (b +:+ c).
Proof. induction a as [|x a IH]; simpl; [done | by rewrite IH]. Qed.

Lemma length_append (a b : string) :
  String.length (a +:+ b) = (String.length a + String.length b)%nat.
Proof. induction a as [|x a IH]; simpl; [done | by rewrite IH]. Qed.

Lemma startswith_app (p s : string) : startswith p (p +:+ s) = true.
Proof.
  induction p as [|c p IH]; simpl; [done |].
  by rewrite Ascii.eqb_refl.
Qed.

Lemma startswith_inv (p s : string) :
  startswith p s = true -> exists post, s = p +:+ post.
Proof.
  revert s. induction p as [|c p IH]; intros s Hs; simpl in *.
  - by exists s.
  - destruct s as [|d s]; [done |].
    destruct (Ascii.eqb_spec c d) as [->|]; [|done].
    destruct (IH _ Hs) as [post ->]. by exists post.
Qed.

Lemma startswith_iff (p s : string) :
  startswith p s = true <-> exists post, s = p +:+ post.
Proof.
  split; [apply startswith_inv |]. intros [post ->]. apply startswith_app.
Qed.

Lemma str_drop_app (p s : string) : str_drop (String.length p) (p +:+ s) = s.
Proof. induction p as [|c p IH]; simpl; [by destruct s | done]. Qed.

(** [sub in s] holds exactly when [s] splits around a copy of [sub]. *)
Lemma contains_iff (sub s : string) :
  contains sub s = true <-> exists pre post, s = pre +:+ sub +:+ post.
Proof.
  split.
  - induction s as [|c s IH]; simpl.
    + destruct (startswith sub "") eqn:E; [|done].
      intros _. apply startswith_inv in E as [post E]. by exists "", post.
    + destruct (startswith sub (String c s)) eqn:E.
      * intros _. apply startswith_inv in E as [post E]. by exists "", post.
      * intros (pre & post & ->)%IH. by exists (String c pre), post.
  - intros (pre & post & ->). induction pre as [|c pre IH].
    + change ("" +:+ sub +:+ post) with (sub +:+ post).
      pose proof (startswith_app sub post) as E.
      destruct (sub +:+ post); simpl; by rewrite E.
    + change (String c pre +:+ sub +:+ post) with (String c (pre +:+ sub +:+ post)).
      simpl. rewrite IH. by destruct (startswith _ _).
Qed.

Lemma contains_false (sub s : string) :
  contains sub s = false <-> ~ exists pre post, s = pre +:+ sub +:+ post.
Proof. rewrite <- contains_iff. by destruct (contains sub s). Qed.

(** [replace_once] rewrites the leftmost occurrence: when no occurrence
    starts before [pre], the copy of [old] after [pre] is the one replaced. *)
Lemma replace_once_leftmost (old new pre post : string) :
  (forall pre' post', pre +:+ old +:+ post = pre' +:+ old +:+ post' ->
                      (String.length pre <= String.length pre')%nat) ->
  replace_once old new (pre +:+ old +:+ post) = pre +:+ new +:+ post.
Proof.
  induction pre as [|c pre IH]; intros Hfirst.
  - change ("" +:+ old +:+ post) with (old +:+ post).
    change ("" +:+ new +:+ post) with (new +:+ post).
    pose proof (startswith_app old post) as E.
    pose proof (str_drop_app old post) as D.
    destruct (old +:+ post); simpl; by rewrite E, D.
  - change (String c pre +:+ old +:+ post) with (String c (pre +:+ old +:+ post)) in *.
    change (String c pre +:+ new +:+ post) with (String c (pre +:+ new +:+ post)).
    simpl. destruct (startswith old (String c (pre +:+ old +:+ post))) eqn:E.
    + apply startswith_inv in E as [post' E].
      specialize (Hfirst "" post' E). simpl in Hfirst. lia.
    + f_equal. apply IH. intros pre' post' E'.
      specialize (Hfirst (String c pre') post'). simpl in Hfirst.
      apply Nat.succ_le_mono, Hfirst. by rewrite E'.
Qed.

End PyFacts.

(** ** The token counter *)

Module TokenCounterProps.
Import Py TokenCounter PyFacts.
Local Open Scope Z_scope.
#[local] Arguments String.append !_ _ / : simpl nomatch.

Section Sums.
Context `{Builtins}.
Variable tk : TokenCounter.

Lemma count_tokens_nonneg (text : string) : 0 <= count_tokens tk text.
Proof. unfold count_tokens. destruct (negb _); lia. Qed.

Lemma count_tokens_empty : count_tokens tk "" = 0.
Proof. reflexivity. Qed.

Lemma fold_count_item (items : list value) (n : Z) :
  fold_left (count_item tk) items n
  = n + foldr (fun item acc => item_tokens tk item + acc) 0 items.
Proof.
  revert n. induction items as [|item items IH]; intros n; simpl; [lia |].
  rewrite IH. destruct item; simpl; lia.
Qed.

Lemma count_field_sum (n : Z) (kv : string * value) :
  count_field tk n kv = n + field_tokens tk (snd kv).
Proof.
  unfold count_field, field_tokens.
  destruct (snd kv); try lia. apply fold_count_item.
Qed.

Lemma fold_count_field (message : dict) (n : Z) :
  fold_left (count_field tk) message n
  = n + foldr (fun kv acc => field_tokens tk (snd kv) + acc) 0 message.
Proof.
  revert n. induction message as [|kv message IH]; intros n; simpl; [lia |].
  rewrite IH, count_field_sum. lia.
Qed.

Lemma count_message_sum (n : Z) (message : dict) :
  count_message tk n message = n + message_tokens tk message.
Proof. unfold count_message, message_tokens. rewrite fold_count_field. lia. Qed.

Lemma fold_count_message (messages : list dict) (n : Z) :
  fold_left (count_message tk) messages n = n + messages_tokens tk messages.
Proof.
  revert n. induction messages as [|m messages IH]; intros n; simpl; [lia |].
  rewrite IH, count_message_sum. lia.
Qed.

Lemma field_tokens_nonneg (v : value) : 0 <= field_tokens tk v.
Proof.
  destruct v; simpl; try lia; try apply count_tokens_nonneg.
  induction items as [|item items IH]; simpl; [lia |].
  assert (0 <= item_tokens tk item); [|lia].
  destruct item; simpl; try lia; apply count_tokens_nonneg.
Qed.

Lemma message_tokens_pos (message : dict) : 4 <= message_tokens tk message.
Proof.
  unfold message_tokens.
  induction message as [|kv message IH]; simpl; [lia |].
  pose proof (field_tokens_nonneg (snd kv)). lia.
Qed.

Lemma messages_tokens_nonneg (messages : list dict) : 0 <= messages_tokens tk messages.
Proof.
  induction messages as [|m messages IH]; simpl; [lia |].
  pose proof (message_tokens_pos m). lia.
Qed.

Lemma messages_tokens_app (l1 l2 : list dict) :
  messages_tokens tk (l1 ++ l2) = messages_tokens tk l1 + messages_tokens tk l2.
Proof. induction l1 as [|m l1 IH]; simpl; [lia | rewrite IH; lia]. Qed.

(** A non-empty list counts its messages and the primer. *)
Lemma count_message_tokens_cons (m : dict) (messages : list dict) :
  count_message_tokens tk (m :: messages)
  = message_tokens tk m + messages_tokens tk messages + 2.
Proof.
  unfold count_message_tokens. rewrite fold_count_message. simpl. lia.
Qed.

(** C6, as amended: the empty list counts 0; a non-empty list counts the
    primer 2 plus, per message, 4 and what its fields add: a string field its
    token count, a list field the token counts of its string items and of
    its stringified map items (other items nothing, the list itself is not
    stringified), a map field the token count of its stringification, a
    field of any other type nothing. *)
Theorem count_message_tokens_sum (messages : list dict) :
  count_message_tokens tk messages
  = match messages with
    | [] => 0
    | _ => messages_tokens tk messages + 2
    end.
Proof.
  destruct messages as [|m messages]; [reflexivity |].
  rewrite count_message_tokens_cons. simpl. lia.
Qed.

End Sums.

(** C6 as stated fails: the empty list counts 0, not the primer 2, and a
    list-valued field is not stringified (its integer item adds nothing,
    where the stringified list ["[7]"] has three characters). *)
Lemma count_message_tokens_differs_from_spec :
  count_message_tokens (H := Runs.builtins) char_counter [] = 0 /\
  spec_count_messages (H := Runs.builtins) char_counter [] = 2 /\
  count_message_tokens (H := Runs.builtins) char_counter
    [[("tags", VList [VInt 7])]] = 6 /\
  spec_count_messages (H := Runs.builtins) char_counter
    [[("tags", VList [VInt 7])]] = 9.
Proof. repeat split; reflexivity. Qed.

(** ** Truncation *)





(** Whatever the encoding, a negative limit is exceeded. *)
Lemma truncate_text_negative_limit_any (tk : TokenCounter) (text : string) (n : Z) :
  n < 0 -> n < count_tokens tk (truncate_text tk text n).
Proof.
  intros Hn. pose proof (count_tokens_nonneg tk (truncate_text tk text n)). lia.
Qed.

(** At a limit [n >= 0] the result need not be the longest prefix within
    the limit: when the merge [bc] outranks [ab], the text ["abc"] is
    encoded as [a], [bc] and cut to ["a"] at limit 1, while its prefix
    ["ab"] is a single token. *)
Lemma truncate_text_merge_ranks :
  tk_decode Runs.merge_counter (tk_encode Runs.merge_counter "abc") = "abc" /\
  truncate_text Runs.merge_counter "abc" 1 = "a" /\
  startswith "ab" "abc" = true /\
  count_tokens Runs.merge_counter "ab" = 1.
Proof. repeat split. Qed.

End TokenCounterProps.

(** ** The working context *)

Module CoreMemoryProps.
Import Py CoreMemory PyFacts.
#[local] Arguments String.append !_ _ / : simpl nomatch.

Lemma occurrences_contains (old s : string) :
  contains old s = true -> (1 <= occurrences old s)%nat.
Proof.
  induction s as [|c s IH]; simpl; destruct (startswith old _);
    intros Hc; try done; try lia.
  specialize (IH Hc). lia.
Qed.

(** With a single occurrence, the copy of [old] between [pre] and [post]
    is the one [replace_once] rewrites. *)
Lemma replace_once_single (old new pre post : string) :
  occurrences old (pre +:+ old +:+ post) = 1%nat ->
  replace_once old new (pre +:+ old +:+ post) = pre +:+ new +:+ post.
Proof.
  induction pre as [|c pre IH]; intros Hocc.
  - apply replace_once_leftmost. intros; simpl; lia.
  - change (String c pre +:+ old +:+ post) with (String c (pre +:+ old +:+ post)) in *.
    change (String c pre +:+ new +:+ post) with (String c (pre +:+ new +:+ post)).
    assert (1 <= occurrences old (pre +:+ old +:+ post))%nat as Htail.
    { apply occurrences_contains, contains_iff. by exists pre, post. }
    simpl in *. destruct (startswith old (String c (pre +:+ old +:+ post))); [lia |].
    f_equal. apply IH. lia.
Qed.

Lemma replace_unknown_section (self : CoreMemory) (section old new : string) :
  sections self !! section = None -> replace self section old new = (false, self).
Proof. intros Hs. unfold replace. by rewrite Hs. Qed.

Lemma replace_absent (self : CoreMemory) (section old new current : string) :
  sections self !! section = Some current -> contains old current = false ->
  replace self section old new = (false, self).
Proof. intros Hs Hc. unfold replace. by rewrite Hs, Hc. Qed.

(** C7, as amended: when the section holds a text with a single
    occurrence of [old], [replace] succeeds and stores the text with that
    occurrence replaced; when the section does not exist or [old] does not
    occur in it, [replace] returns the one failure value [False], the same
    in both cases, and the working context is left as it was. *)
Theorem replace_single_occurrence (self : CoreMemory) (section old new : string) :
  (forall pre post,
     sections self !! section = Some (pre +:+ old +:+ post) ->
     occurrences old (pre +:+ old +:+ post) = 1%nat ->
     replace self section old new
     = (true, {| sections := <[section := pre +:+ new +:+ post]> (sections self) |})) /\
  (sections self !! section = None \/
   (exists current, sections self !! section = Some current /\
      ~ exists pre post, current = pre +:+ old +:+ post) ->
   replace self section old new = (false, self)).
Proof.
  split.
  - intros pre post Hs Hocc. unfold replace. rewrite Hs.
    assert (contains old (pre +:+ old +:+ post) = true) as ->.
    { apply contains_iff. by exists pre, post. }
    simpl. by rewrite replace_once_single.
  - intros [Hs | (current & Hs & Habsent)].
    + by apply replace_unknown_section.
    + eapply replace_absent; [done |]. by apply contains_false.
Qed.

Lemma replace_single_occurrence_witness :
  replace init "human" "user" "person"
  = (true, {| sections :=
                <["human" := "No information about the person yet."]> (sections init) |}) /\
  replace init "goals" "user" "person" = (false, init) /\
  replace init "human" "admin" "person" = (false, init).
Proof.
  destruct (replace_single_occurrence init "human" "user" "person") as [Hok _].
  destruct (replace_single_occurrence init "goals" "user" "person") as [_ Hunknown].
  destruct (replace_single_occurrence init "human" "admin" "person") as [_ Habsent].
  split; [|split].
  - apply (Hok "No information about the " " yet."); reflexivity.
  - apply Hunknown. left. reflexivity.
  - apply Habsent. right. exists "No information about the user yet.".
    split; [reflexivity |]. apply contains_false. reflexivity.
Defined.

(** C10: with the empty string as the text to replace, [replace]
    succeeds on every existing section and puts [new_content] in front of
    the section's text. *)
Theorem replace_empty_target (self : CoreMemory) (section new_content current : string) :
  sections self !! section = Some current ->
  replace self section "" new_content
  = (true, {| sections := <[section := new_content +:+ current]> (sections self) |}).
Proof.
  intros Hs. unfold replace. rewrite Hs.
  by destruct current.
Qed.

Lemma replace_empty_target_witness :
  replace init "human" "" "Name: Ada. "
  = (true, {| sections :=
                <["human" := "Name: Ada. No information about the user yet."]>
                (sections init) |}).
Proof.
  apply (replace_empty_target init "human" "Name: Ada. "
           "No information about the user yet.").
  reflexivity.
Defined.

(** [append] adds a line feed and the content to an existing section. *)
Lemma append_existing (self : CoreMemory) (section content current : string) :
  sections self !! section = Some current ->
  append self section content
  = (true, {| sections := <[section := current +:+ nl +:+ content]> (sections self) |}).
Proof. intros Hs. unfold append. by rewrite Hs. Qed.

End CoreMemoryProps.

(** ** The queue manager *)

Module QueueManagerProps.
Import Py TokenCounter QueueManager TokenCounterProps.
#[local] Arguments String.append !_ _ / : simpl nomatch.

Section Invariants.
Context `{Builtins}.

Lemma get_queue_size_sum (self : QueueManager) :
  get_queue_size self
  = match queue self with
    | [] => 0%Z
    | _ => (queue_tokens self (queue self) + 2)%Z
    end.
Proof.
  unfold get_queue_size, queue_tokens.
  destruct (queue self) as [|m q]; [reflexivity |].
  cbn [map]. rewrite count_message_tokens_cons. simpl. lia.
Qed.

Lemma queue_tokens_app (self : QueueManager) (q1 q2 : list Message) :
  queue_tokens self (q1 ++ q2) = (queue_tokens self q1 + queue_tokens self q2)%Z.
Proof. unfold queue_tokens. by rewrite map_app, messages_tokens_app. Qed.

Lemma queue_tokens_nonneg (self : QueueManager) (q : list Message) :
  (0 <= queue_tokens self q)%Z.
Proof. apply messages_tokens_nonneg. Qed.

Lemma insert_messages_rows (msgs : list Message) (store : list Row) :
  exists rows,
    fold_left (fun st msg =>
                 snd (insert_message st (role msg) (content msg) (metadata msg)))
              msgs store = store ++ rows /\
    map (fun r => (row_role r, row_content r)) rows
    = map (fun m => (role m, content m)) msgs.
Proof.
  revert store. induction msgs as [|m msgs IH]; intros store.
  - exists []. simpl. by rewrite app_nil_r.
  - destruct (IH (store ++ [row_of (next_id store) m])) as (rows & Hfold & Hrows).
    exists (row_of (next_id store) m :: rows). split.
    + cbn [fold_left].
      change (snd (insert_message store (role m) (content m) (metadata m)))
        with (store ++ [row_of (next_id store) m]).
      by rewrite Hfold, <- app_assoc.
    + simpl. by rewrite Hrows.
Qed.

Lemma evict_count_le (n : nat) : (2 <= n -> Nat.max 1 ((n - 1) / 3) <= n - 1)%nat.
Proof.
  intros Hn. apply Nat.max_lub; [lia |].
  apply Nat.Div0.div_le_upper_bound. lia.
Qed.

(** C3: an eviction on a queue of [n >= 2] slots removes the slots 1 to
    [k = max(1, (n-1)/3)], writes them to the recall store in queue order,
    puts one new system summary message in slot 0 and leaves [n - k]
    slots. *)
Theorem evict_messages_oldest_third (self : QueueManager) :
  (2 <= length (queue self))%nat ->
  let n := length (queue self) in
  let k := Nat.max 1 ((n - 1) / 3) in
  let self' := _evict_messages self in
  (1 <= k <= n - 1)%nat /\
  (exists new_summary,
     queue self' = {| role := "system"; content := new_summary; metadata := None |}
                     :: drop (S k) (queue self)) /\
  length (queue self') = (n - k)%nat /\
  (exists rows,
     recall_storage self' = recall_storage self ++ rows /\
     map (fun r => (row_role r, row_content r)) rows
     = map (fun m => (role m, content m)) (take k (drop 1 (queue self)))) /\
  events self' = events self ++ [Evicted k].
Proof.
  intros Hn n k self'.
  pose proof (evict_count_le n Hn) as Hk. fold k in Hk.
  assert (1 <= k)%nat by (unfold k; lia).
  subst self'. unfold _evict_messages.
  destruct (queue self) as [|summary [|m rest]] eqn:Hq; simpl in Hn; [lia | lia |].
  fold n k. replace (k + 1)%nat with (S k) by lia.
  split; [lia |]. split; [by eexists |]. split.
  - cbn [queue with_queue length]. rewrite length_drop. fold n. lia.
  - split; [|done]. cbn [recall_storage with_queue with_recall].
    unfold slice. replace (S k - 1)%nat with k by lia.
    apply insert_messages_rows.
Qed.

(** *** Pressure warnings *)

Lemma int_gt_float_mono (n n' : Z) (x : float) :
  (n <= n')%Z -> int_gt_float n x = true -> int_gt_float n' x = true.
Proof.
  intros Hle. unfold int_gt_float.
  destruct x as [s | s | | s m e]; cbn [float_value]; try done.
  all: intros Hn; destruct (Qle_bool (inject_Z n') _) eqn:E; [|done].
  all: apply Qle_bool_iff in E.
  all: match type of Hn with
       | negb (Qle_bool _ ?q) = true =>
           assert (Qle_bool (inject_Z n) q = true) as Hq
             by (apply Qle_bool_iff; eapply Qle_trans; [|exact E];
                 by rewrite <- Zle_Qle)
       end.
  all: by rewrite Hq in Hn.
Qed.

Lemma int_ge_float_value (n : Z) (x : float) (q : Q) :
  float_value x = Some q -> int_ge_float n x = Qle_bool q (inject_Z n).
Proof.
  unfold int_ge_float.
  destruct x as [s | s | | s m e]; cbn [float_value]; intros Hq; try done.
  all: by injection Hq as <-.
Qed.

Lemma int_gt_float_value (n : Z) (x : float) (q : Q) :
  float_value x = Some q -> int_gt_float n x = negb (Qle_bool (inject_Z n) q).
Proof.
  unfold int_gt_float.
  destruct x as [s | s | | s m e]; cbn [float_value]; intros Hq; try done.
  all: by injection Hq as <-.
Qed.

Lemma above_mono (t t' mx : Z) (w : float) :
  (t <= t')%Z -> above t mx w = true -> above t' mx w = true.
Proof. unfold above. apply int_gt_float_mono. Qed.

Lemma at_least_false (t mx : Z) (w : float) (q : Q) :
  float_value (int_mul_float mx w) = Some q ->
  at_least t mx w = false -> (inject_Z t < q)%Q.
Proof.
  unfold at_least. intros Hq Hf. rewrite (int_ge_float_value _ _ _ Hq) in Hf.
  apply Qnot_le_lt. intros Hle. apply Qle_bool_iff in Hle. congruence.
Qed.

(** The products are rounded as the interpreter rounds them: [170 * 0.7]
    is [118.99999999999999], below 119, and [100 * 0.7000000000000001] is
    [70.0]; an int from [2^1024 - 2^970] on has no float. *)
Lemma threshold_tests_rounded :
  above 119 170 (float_literal (7 # 10)) = true /\
  at_least 70 100 (float_literal (7000000000000001 # 10000000000000000)) = true /\
  at_least 70 100 (float_literal (7 # 10)) = true /\
  above 70 100 (float_literal (7 # 10)) = false /\
  fits_float (2 ^ 1024 - 2 ^ 970) = false /\
  fits_float (2 ^ 1024 - 2 ^ 970 - 1) = true.
Proof. repeat split; by vm_compute. Qed.

Lemma last_is_pressure_message_snoc (q : list Message) (m : Message) :
  last_is_pressure_message (q ++ [m]) = is_pressure_message m.
Proof. unfold last_is_pressure_message. by rewrite last_snoc. Qed.

Lemma flush_check_no_warning (self : QueueManager) (t : Z) :
  fst (flush_check self t) = false.
Proof. unfold flush_check. by destruct (at_least _ _ _). Qed.

Lemma evict_messages_events (self : QueueManager) :
  events (_evict_messages self) = events self \/
  exists k, events (_evict_messages self) = events self ++ [Evicted k].
Proof.
  unfold _evict_messages. destruct (queue self) as [|s [|m rest]]; eauto.
Qed.

Lemma flush_check_events (self : QueueManager) (t : Z) :
  events (snd (flush_check self t)) = events self \/
  exists k, events (snd (flush_check self t)) = events self ++ [Evicted k].
Proof.
  unfold flush_check. destruct (at_least _ _ _); simpl; [|by left].
  apply evict_messages_events.
Qed.

Lemma check_memory_pressure_warned (self : QueueManager) :
  fst (_check_memory_pressure self)
  = above (get_queue_size self) (max_tokens self) (warning_threshold self)
    && negb (last_is_pressure_message (queue self)).
Proof.
  unfold _check_memory_pressure.
  destruct (above _ _ _); simpl; [|apply flush_check_no_warning].
  destruct (last_is_pressure_message _); simpl; [apply flush_check_no_warning | done].
Qed.

Lemma check_memory_pressure_true (self : QueueManager) :
  fst (_check_memory_pressure self) = true ->
  _check_memory_pressure self
  = (true, log (with_queue self (queue self ++ [warning_msg])) Warned).
Proof.
  unfold _check_memory_pressure.
  destruct (above _ _ _); simpl.
  - destruct (last_is_pressure_message _); simpl; [|done].
    by rewrite flush_check_no_warning.
  - by rewrite flush_check_no_warning.
Qed.

Lemma check_memory_pressure_false (self : QueueManager) :
  fst (_check_memory_pressure self) = false ->
  _check_memory_pressure self = flush_check self (get_queue_size self).
Proof.
  unfold _check_memory_pressure.
  destruct (above _ _ _); simpl; [|done].
  by destruct (last_is_pressure_message _).
Qed.

Lemma get_queue_size_app_le (self self' : QueueManager) (extra : list Message) :
  token_counter self' = token_counter self ->
  queue self <> [] ->
  queue self' = queue self ++ extra ->
  (get_queue_size self <= get_queue_size self')%Z.
Proof.
  intros Htk Hne Hq. rewrite !get_queue_size_sum, Hq.
  destruct (queue self) as [|m q] eqn:E; [done |]. simpl app.
  change (m :: q ++ extra) with ((m :: q) ++ extra).
  unfold queue_tokens. rewrite Htk, map_app, messages_tokens_app.
  pose proof (messages_tokens_nonneg (token_counter self) (map to_dict extra)).
  cbn [app]. lia.
Qed.

Lemma evict_messages_queue (self : QueueManager) (old m : Message) (rest : list Message) :
  queue self = old :: m :: rest ->
  let k := Nat.max 1 ((length (queue self) - 1) / 3) in
  exists new_summary,
    queue (_evict_messages self)
    = {| role := "system"; content := new_summary; metadata := None |}
        :: drop k (m :: rest).
Proof.
  intros Hq k. subst k. unfold _evict_messages. rewrite Hq.
  set (k := Nat.max 1 _). replace (k + 1)%nat with (S k) by lia.
  by eexists.
Qed.

(** C2, as amended: where [max_tokens] converts to a float, [add_message]
    returns [True] exactly when the count after the append is above the
    float [max_tokens * warning_threshold] and the last slot, which is the
    message just added, is not a memory-pressure system message; it then has
    appended the one warning message behind the new message and written
    nothing to the recall store. When it returns [False] no warning was
    appended: the queue is the old one with the new message, or what an
    eviction leaves of that, a summary followed by its newest messages.
    After a warning, a further add whose message is not itself a
    memory-pressure system message is warned again. *)
Theorem add_message_warning (self : QueueManager) (r c : string) (md : option dict) :
  fits_float (max_tokens self) = true ->
  let m := make_message r c md in
  let queued := with_queue self (queue self ++ [m]) in
  let result := add_message self r c md in
  let k := Nat.max 1 ((length (queue queued) - 1) / 3) in
  fst result
  = above (get_queue_size queued) (max_tokens self) (warning_threshold self)
    && negb (is_pressure_message m) /\
  (fst result = true ->
     queue (snd result) = queue self ++ [m; warning_msg] /\
     recall_storage (snd result) = recall_storage self /\
     events (snd result) = events self ++ [Warned]) /\
  (fst result = false ->
     snd result = queued \/
     (snd result = _evict_messages queued /\
      exists new, queue (snd result) = new :: drop (S k) (queue self ++ [m]))) /\
  (fst result = true ->
     forall r2 c2 md2,
       is_pressure_message (make_message r2 c2 md2) = false ->
       fst (add_message (snd result) r2 c2 md2) = true).
Proof.
  intros _ m queued result k. subst result. unfold add_message. fold m queued.
  assert (fst (_check_memory_pressure queued)
          = above (get_queue_size queued) (max_tokens self) (warning_threshold self)
            && negb (is_pressure_message m)) as Hfst.
  { rewrite check_memory_pressure_warned.
    change (queue queued) with (queue self ++ [m]).
    by rewrite last_is_pressure_message_snoc. }
  split; [exact Hfst |]. split; [|split].
  - intros Ht. rewrite (check_memory_pressure_true _ Ht). cbn.
    by rewrite <- app_assoc.
  - intros Hf. rewrite (check_memory_pressure_false _ Hf). unfold flush_check.
    destruct (at_least _ _ _); cbn [snd]; [|by left].
    destruct (queue queued) as [|old [|m' rest]] eqn:Hq.
    + left. unfold _evict_messages. by rewrite Hq.
    + left. unfold _evict_messages. by rewrite Hq.
    + right. split; [done |].
      destruct (evict_messages_queue queued old m' rest Hq) as (new & Hq').
      rewrite Hq in Hq'. fold k in Hq'. eexists. rewrite Hq'.
      change (queue self ++ [m]) with (queue queued). by rewrite Hq.
  - intros Ht r2 c2 md2 Hm2.
    rewrite Ht in Hfst. symmetry in Hfst. apply andb_true_iff in Hfst as [Habove _].
    rewrite (check_memory_pressure_true _ Ht). cbn [snd].
    set (warned := log (with_queue queued (queue queued ++ [warning_msg])) Warned).
    set (m2 := make_message r2 c2 md2) in *.
    set (queued2 := with_queue warned (queue warned ++ [m2])).
    rewrite check_memory_pressure_warned.
    change (queue queued2) with (queue warned ++ [m2]).
    rewrite last_is_pressure_message_snoc, Hm2, andb_true_r.
    eapply above_mono; [|exact Habove].
    apply (get_queue_size_app_le queued queued2 [warning_msg; m2]); [done | |].
    + cbn. by destruct (queue self).
    + cbn. by rewrite <- !app_assoc.
Qed.

(** *** Eviction and the flush threshold *)

Lemma get_queue_size_cons (self : QueueManager) (m : Message) (q : list Message) :
  queue self = m :: q ->
  get_queue_size self
  = (message_tokens (token_counter self) (to_dict m) + queue_tokens self q + 2)%Z.
Proof. intros Hq. rewrite get_queue_size_sum, Hq. unfold queue_tokens. simpl. lia. Qed.

Lemma evict_messages_token_counter (self : QueueManager) :
  token_counter (_evict_messages self) = token_counter self.
Proof. unfold _evict_messages. by destruct (queue self) as [|s [|m rest]]. Qed.

Lemma evict_messages_size (self : QueueManager) (old m : Message) (rest : list Message) :
  queue self = old :: m :: rest ->
  let k := Nat.max 1 ((length (queue self) - 1) / 3) in
  exists new,
    queue (_evict_messages self) = new :: drop k (m :: rest) /\
    role new = "system" /\
    get_queue_size (_evict_messages self)
    = (get_queue_size self
       - message_tokens (token_counter self) (to_dict old)
       - queue_tokens self (take k (m :: rest))
       + message_tokens (token_counter self) (to_dict new))%Z.
Proof.
  intros Hq k.
  destruct (evict_messages_queue self old m rest Hq) as (new_summary & Hq').
  fold k in Hq'. eexists. split; [exact Hq' |]. split; [done |].
  rewrite (get_queue_size_cons _ _ _ Hq'), (get_queue_size_cons _ _ _ Hq).
  unfold queue_tokens. rewrite evict_messages_token_counter.
  fold (queue_tokens self (drop k (m :: rest))) (queue_tokens self (m :: rest))
       (queue_tokens self (take k (m :: rest))).
  rewrite <- (take_drop k (m :: rest)) at 2. rewrite queue_tokens_app. lia.
Qed.

(** An eviction on two slots or more shortens the queue by the number of
    messages it logs. *)
Lemma evict_messages_shorter (self : QueueManager) :
  (2 <= length (queue self))%nat ->
  let k := Nat.max 1 ((length (queue self) - 1) / 3) in
  (length (queue (_evict_messages self)) < length (queue self))%nat /\
  events (_evict_messages self) = events self ++ [Evicted k].
Proof.
  intros Hlen k.
  pose proof (evict_count_le _ Hlen) as Hk. fold k in Hk.
  assert (1 <= k)%nat by (unfold k; lia).
  destruct (queue self) as [|old [|m rest]] eqn:Hq; simpl in Hlen; [lia | lia |].
  destruct (evict_messages_queue self old m rest Hq) as (new & Hq').
  rewrite Hq in Hq'. fold k in Hq'. split.
  - rewrite Hq'. cbn [length]. rewrite length_drop. simpl in *. lia.
  - unfold _evict_messages. by rewrite Hq.
Qed.

(** C1, as amended: when [add_message] on a non-empty queue returns
    [False], either the count is below [max_tokens * flush_threshold], the
    float product the code's test [>=] compares it with, or an eviction ran
    during the call. An eviction makes the queue shorter, and
    changes the count by the tokens of the new summary message less those
    of the old summary message and of the evicted messages, so the count
    decreases exactly when the new summary message has fewer tokens than
    what was removed. *)
Theorem add_message_flush (self : QueueManager) (r c : string) (md : option dict) :
  queue self <> [] ->
  let queued := with_queue self (queue self ++ [make_message r c md]) in
  let result := add_message self r c md in
  let k := Nat.max 1 ((length (queue queued) - 1) / 3) in
  (fst result = false ->
     (at_least (get_queue_size (snd result)) (max_tokens self) (flush_threshold self)
      = false /\
      forall q,
        float_value (int_mul_float (max_tokens self) (flush_threshold self)) = Some q ->
        (inject_Z (get_queue_size (snd result)) < q)%Q) \/
     (snd result = _evict_messages queued /\
      events (snd result) = events self ++ [Evicted k])) /\
  (length (queue (_evict_messages queued)) < length (queue queued))%nat /\
  (exists old new,
     head (queue queued) = Some old /\
     head (queue (_evict_messages queued)) = Some new /\
     get_queue_size (_evict_messages queued)
     = (get_queue_size queued
        - message_tokens (token_counter self) (to_dict old)
        - queue_tokens self (take k (drop 1 (queue queued)))
        + message_tokens (token_counter self) (to_dict new))%Z).
Proof.
  intros Hne queued result k.
  assert (2 <= length (queue queued))%nat as Hlen.
  { cbn. rewrite length_app. simpl. destruct (queue self); [done | simpl; lia]. }
  destruct (evict_messages_shorter queued Hlen) as (Hshort & Hev).
  fold k in Hev.
  split; [|split].
  - intros Hf. subst result. unfold add_message in *. fold queued in Hf |- *.
    rewrite (check_memory_pressure_false _ Hf). unfold flush_check.
    destruct (at_least (get_queue_size queued) _ _) eqn:E; cbn [snd].
    + right. split; [done |]. exact Hev.
    + left. split; [exact E |]. intros q Hq. exact (at_least_false _ _ _ _ Hq E).
  - exact Hshort.
  - destruct (queue queued) as [|old [|m rest]] eqn:Hq; simpl in Hlen; [lia | lia |].
    destruct (evict_messages_size queued old m rest Hq) as (new & Hq' & _ & Hsize).
    rewrite Hq in Hsize. fold k in Hq', Hsize.
    exists old, new. split; [done |]. split; [by rewrite Hq' |]. exact Hsize.
Qed.

(** *** Slot 0 *)

Lemma slot0_system_app (q extra : list Message) :
  slot0_system q -> slot0_system (q ++ extra).
Proof. intros (m & rest & -> & Hm). by exists m, (rest ++ extra). Qed.

Lemma evict_messages_slot0 (self : QueueManager) :
  slot0_system (queue self) -> slot0_system (queue (_evict_messages self)).
Proof.
  intros Hs. unfold _evict_messages.
  destruct (queue self) as [|s [|m rest]] eqn:Hq; try (by rewrite Hq).
  cbn. by eexists _, _.
Qed.

Lemma check_memory_pressure_slot0 (self : QueueManager) :
  slot0_system (queue self) -> slot0_system (queue (snd (_check_memory_pressure self))).
Proof.
  intros Hs. unfold _check_memory_pressure, flush_check.
  repeat case_match; cbn [snd]; try done;
    try (by apply evict_messages_slot0); by apply slot0_system_app.
Qed.

Lemma apply_slot0 (self : QueueManager) (o : op) :
  slot0_system (queue self) -> slot0_system (queue (apply self o)).
Proof.
  intros Hs. destruct o as [r c md|keep|s|]; cbn [apply].
  - unfold add_message. apply check_memory_pressure_slot0. cbn.
    by apply slot0_system_app.
  - destruct Hs as (m & rest & Hq & Hm). unfold clear_queue. rewrite Hq.
    destruct keep; cbn; by eexists _, _.
  - destruct Hs as (m & rest & Hq & Hm). unfold set_summary. rewrite Hq.
    cbn. by eexists _, _.
  - by apply evict_messages_slot0.
Qed.

Lemma only_warnings_snoc (q : list Message) (m : Message) :
  only_warnings q -> (role m = "system" -> m = warning_msg) -> only_warnings (q ++ [m]).
Proof.
  unfold only_warnings. intros Hq Hm. destruct q as [|s q]; [by constructor |].
  cbn in *. rewrite drop_0 in *. apply Forall_app. split; [done |]. by constructor.
Qed.

Lemma evict_messages_only_warnings (self : QueueManager) :
  only_warnings (queue self) -> only_warnings (queue (_evict_messages self)).
Proof.
  unfold only_warnings, _evict_messages. intros Hq.
  destruct (queue self) as [|s [|m rest]] eqn:E; try (by rewrite E).
  cbn [queue with_queue]. cbn [drop] in *. rewrite drop_0 in *.
  set (k := Nat.max 1 _). replace (k + 1)%nat with (S k) by lia.
  cbn [drop]. by apply Forall_drop.
Qed.

Lemma check_memory_pressure_only_warnings (self : QueueManager) :
  only_warnings (queue self) ->
  only_warnings (queue (snd (_check_memory_pressure self))).
Proof.
  intros Hq. unfold _check_memory_pressure, flush_check.
  repeat case_match; cbn [snd]; try done;
    try (by apply evict_messages_only_warnings).
  cbn. by apply only_warnings_snoc.
Qed.

Lemma apply_only_warnings (self : QueueManager) (o : op) :
  adds_system o = false ->
  only_warnings (queue self) -> only_warnings (queue (apply self o)).
Proof.
  intros Ho Hq. destruct o as [r c md|keep|s|]; cbn [apply].
  - unfold add_message. apply check_memory_pressure_only_warnings. cbn.
    apply only_warnings_snoc; [done |]. cbn in *. intros ->. done.
  - unfold clear_queue. destruct keep, (queue self); by constructor.
  - unfold set_summary. unfold only_warnings in *.
    destruct (queue self); cbn in *; [by constructor | done].
  - by apply evict_messages_only_warnings.
Qed.

Lemma run_slot0 (self : QueueManager) (ops : list op) :
  slot0_system (queue self) -> slot0_system (queue (run self ops)).
Proof.
  revert self. induction ops as [|o ops IH]; intros self Hs; [done |].
  apply IH. by apply apply_slot0.
Qed.

Lemma run_only_warnings (self : QueueManager) (ops : list op) :
  forallb (fun o => negb (adds_system o)) ops = true ->
  only_warnings (queue self) -> only_warnings (queue (run self ops)).
Proof.
  revert self. induction ops as [|o ops IH]; intros self Hops Hq; [done |].
  cbn in Hops. apply andb_true_iff in Hops as [Ho Hops].
  apply IH; [done |]. apply apply_only_warnings; [|done].
  by destruct (adds_system o).
Qed.

Lemma clear_queue_reset (self : QueueManager) :
  queue (clear_queue self false) = [empty_summary].
Proof. reflexivity. Qed.

(** C4, as amended: from construction on and through every sequence of
    [add_message], [clear_queue], [set_summary] and evictions, slot 0 exists
    and has the role [system]; the summary of a new or reset queue is
    ["Conversation summary: No previous interactions."]; and as long as no
    [add_message] is given the role [system] itself, every system message
    behind slot 0 is the injected pressure warning. *)
Theorem slot0_always_system (max_tokens : Z) (tk : TokenCounter) (store : list Row)
    (f : option (string -> result string)) (warning flush : float) (ops : list op) :
  let start := init max_tokens tk store f warning flush in
  let self := run start ops in
  (exists m rest, queue self = m :: rest /\ role m = "system") /\
  get_summary start = "Conversation summary: No previous interactions." /\
  get_summary (clear_queue self false)
  = "Conversation summary: No previous interactions." /\
  (forallb (fun o => negb (adds_system o)) ops = true ->
   forall i m, queue self !! S i = Some m -> role m = "system" -> m = warning_msg).
Proof.
  intros start self.
  assert (slot0_system (queue start)) as Hs by (by eexists _, _).
  split; [by apply run_slot0 |]. split; [done |]. split; [done |].
  intros Hops i m Hi Hm.
  assert (only_warnings (queue self)) as Hw.
  { apply run_only_warnings; [done |]. constructor. }
  unfold only_warnings in Hw. rewrite Forall_lookup in Hw.
  apply (Hw i m); [|done]. by rewrite lookup_drop.
Qed.

End Invariants.

Lemma evict_messages_oldest_third_witness :
  length (queue (_evict_messages (H := Runs.builtins) Runs.six_messages)) = 5%nat /\
  map row_content (recall_storage (_evict_messages (H := Runs.builtins) Runs.six_messages))
  = ["one"; "two"].
Proof.
  destruct (evict_messages_oldest_third (H := Runs.builtins) Runs.six_messages)
    as (_ & _ & Hlen & _ & _).
  - simpl. lia.
  - split; [exact Hlen | reflexivity].
Defined.

Lemma add_message_flush_witness :
  queue Runs.tight <> [] /\
  (length (queue (_evict_messages (H := Runs.builtins)
                    (with_queue Runs.tight
                       (queue Runs.tight ++ [make_message "user" "hello" None]))))
   < length (queue (with_queue Runs.tight
                      (queue Runs.tight ++ [make_message "user" "hello" None]))))%nat.
Proof.
  split; [done |].
  apply (add_message_flush (H := Runs.builtins) Runs.tight "user" "hello" None).
  done.
Defined.

(** C1 as stated fails twice over. With [warning = 0.7 < flush = 0.95 <= 1]
    and a window of 100 tokens, adding the user message ["hello"] brings the
    count to 154, for which the flush test [154 >= 100 * 0.95] holds, and the
    call appends the warning and returns without evicting. And when an eviction does run, on adding a system
    message that mentions memory pressure, the count goes from 95 to 115:
    the summary grew by more than the evicted message took away. *)
Lemma add_message_flush_fails :
  (exists warning flush,
     float_value (warning_threshold Runs.tight) = Some warning /\
     float_value (flush_threshold Runs.tight) = Some flush /\
     (warning < flush)%Q /\ (flush <= 1)%Q) /\
  fst (add_message (H := Runs.builtins) Runs.tight "user" "hello" None) = true /\
  events (snd (add_message (H := Runs.builtins) Runs.tight "user" "hello" None))
  = [Warned] /\
  get_queue_size (H := Runs.builtins)
    (snd (add_message (H := Runs.builtins) Runs.tight "user" "hello" None)) = 154%Z /\
  at_least 154 (max_tokens Runs.tight) (flush_threshold Runs.tight) = true /\
  get_queue_size (H := Runs.builtins)
    (with_queue Runs.nearly_full
       (queue Runs.nearly_full ++ [make_message "system" "Memory pressure!" None]))
  = 95%Z /\
  events (snd (add_message (H := Runs.builtins) Runs.nearly_full
                 "system" "Memory pressure!" None)) = [Evicted 1] /\
  get_queue_size (H := Runs.builtins)
    (snd (add_message (H := Runs.builtins) Runs.nearly_full
            "system" "Memory pressure!" None)) = 115%Z.
Proof.
  split.
  - eexists _, _. split; [by vm_compute |]. split; [by vm_compute |].
    split; [by vm_compute |]. apply Qle_bool_iff. by vm_compute.
  - repeat split; by vm_compute.
Qed.

Lemma add_message_warning_witness :
  fst (add_message (H := Runs.builtins)
         (snd (add_message (H := Runs.builtins) Runs.tight "user" "hello" None))
         "user" "ok" None) = true.
Proof.
  apply (add_message_warning (H := Runs.builtins) Runs.tight "user" "hello" None);
    by vm_compute.
Defined.

(** C2 as stated fails in its last part: after a first warning, a second
    add that stays far below the flush threshold (295 of 950 tokens) is
    warned again, and the queue then holds two warnings. *)
Lemma add_message_duplicate_warning :
  last (queue Runs.warned_once) = Some warning_msg /\
  fst (add_message (H := Runs.builtins) Runs.warned_once "user" "ok" None) = true /\
  queue (snd (add_message (H := Runs.builtins) Runs.warned_once "user" "ok" None))
  = queue Runs.warned_once ++ [make_message "user" "ok" None; warning_msg] /\
  get_queue_size (H := Runs.builtins)
    (snd (add_message (H := Runs.builtins) Runs.warned_once "user" "ok" None)) = 295%Z /\
  at_least 295 (max_tokens Runs.roomy) (flush_threshold Runs.roomy) = false /\
  length (List.filter is_pressure_message
            (queue (snd (add_message (H := Runs.builtins) Runs.warned_once
                           "user" "ok" None)))) = 2%nat.
Proof. repeat split; by vm_compute. Qed.

Lemma slot0_always_system_witness :
  exists m rest,
    queue (run (H := Runs.builtins) (Runs.manager 8000 (7 # 10) (95 # 100))
             [Add "user" "hi" None; SetSummary "met the user"; Evict; Clear true])
    = m :: rest /\ role m = "system".
Proof.
  apply (slot0_always_system (H := Runs.builtins) 8000 char_counter [] None
           (float_literal (7 # 10)) (float_literal (95 # 100))
           [Add "user" "hi" None; SetSummary "met the user"; Evict; Clear true]).
Defined.

(** C4 as stated fails: a caller may add a message with the role [system]
    (the agent does so on a model error), which then sits behind slot 0
    without being a pressure warning; and the summary of a new queue is not
    the bare text ["No previous interactions."]. *)
Lemma system_message_behind_slot0 :
  queue (snd (add_message (H := Runs.builtins) (Runs.manager 8000 (7 # 10) (95 # 100))
                "system" "LLM API Error: timeout" None)) !! 1%nat
  = Some (make_message "system" "LLM API Error: timeout" None) /\
  role (make_message "system" "LLM API Error: timeout" None) = "system" /\
  is_pressure_message (make_message "system" "LLM API Error: timeout" None) = false /\
  make_message "system" "LLM API Error: timeout" None <> warning_msg /\
  get_summary (Runs.manager 8000 (7 # 10) (95 # 100)) <> "No previous interactions.".
Proof. repeat split; done. Qed.

End QueueManagerProps.

(** ** The tool executor *)

Module FunctionExecutorProps.
Import Py FunctionExecutor PyFacts.
#[local] Arguments String.append !_ _ / : simpl nomatch.

Section Execute.
Context `{Builtins}.

Lemma bind_arguments_not_mapping (fname : string) (sig : signature) (arguments : value) :
  (forall kwargs, arguments <> VDict kwargs) ->
  exists detail, bind_arguments fname sig arguments = Raise (TypeError detail).
Proof. intros Hnd. destruct arguments; simpl; eauto. by destruct (Hnd items). Qed.

Lemma bind_arguments_unexpected (fname : string) (sig : signature) (kwargs : dict) :
  unexpected_argument sig kwargs ->
  exists detail, bind_arguments fname sig (VDict kwargs) = Raise (TypeError detail).
Proof.
  intros (k & Hk & Hno). simpl.
  destruct (find _ (map fst kwargs)) as [k'|] eqn:E; [eauto |].
  apply list_elem_of_In in Hk.
  pose proof (find_none _ _ E k Hk) as Hf. simpl in Hf.
  by rewrite Hno in Hf.
Qed.

Lemma bind_arguments_missing (fname : string) (sig : signature) (kwargs : dict) :
  missing_argument sig kwargs ->
  exists detail, bind_arguments fname sig (VDict kwargs) = Raise (TypeError detail).
Proof.
  intros (p & Hp & Hno). simpl.
  destruct (find _ (map fst kwargs)); [eauto |].
  destruct (List.filter _ (required sig)) as [|q qs] eqn:E; [|eauto].
  assert (In p (List.filter (fun p => negb (has_key p (map fst kwargs))) (required sig)))
    as Hin.
  { apply filter_In. split; [by apply list_elem_of_In |]. by rewrite Hno. }
  rewrite E in Hin. destruct Hin.
Qed.

(** A [TypeError] raised by the call is reported as invalid arguments. *)
Lemma execute_type_error (self : FunctionExecutor) (name : string) (arguments : value)
    (sig : signature) (h : handler) (detail : string) :
  lookup_function function_map name = Some (sig, h) ->
  bind_arguments name sig arguments = Raise (TypeError detail) ->
  execute self name arguments
  = (Ok ("error", "Invalid arguments for " +:+ name +:+ ": " +:+ detail, None), self).
Proof. intros Hl Hb. unfold execute. by rewrite Hl, Hb. Qed.

Lemma execute_total (self : FunctionExecutor) (name : string) (arguments : value) :
  exists status msg output self',
    execute self name arguments = (Ok (status, msg, output), self') /\
    (status = "success" \/ status = "error").
Proof.
  unfold execute. destruct (lookup_function function_map name) as [[sig h]|].
  - destruct (match bind_arguments name sig arguments with
              | Ok bound => h self bound
              | Raise e => (Raise e, self)
              end) as [[result|e] self'].
    + eauto 10.
    + destruct e; simpl; eauto 10.
  - eauto 10.
Qed.

Lemma execute_append_unknown_section (self : FunctionExecutor) (s : string)
    (content : value) :
  CoreMemory.sections (core_memory self) !! s = None ->
  execute self "core_memory_append" (VDict [("section", VStr s); ("content", content)])
  = (Ok ("error",
         "Error executing core_memory_append: Section '" +:+ s +:+ "' does not exist",
         None), self).
Proof.
  intros Hs. unfold execute. cbn -[String.append].
  unfold _core_memory_append, core_memory_append, arg. cbn -[String.append].
  unfold CoreMemory.append. by rewrite Hs.
Qed.

Lemma execute_replace_unknown_section (self : FunctionExecutor) (s : string)
    (old new : value) :
  CoreMemory.sections (core_memory self) !! s = None ->
  execute self "core_memory_replace"
    (VDict [("section", VStr s); ("old_content", old); ("new_content", new)])
  = (Ok ("error",
         "Error executing core_memory_replace: Could not find old_content in section '"
           +:+ s +:+ "'",
         None), self).
Proof.
  intros Hs. unfold execute. cbn -[String.append].
  unfold _core_memory_replace, core_memory_replace, arg. cbn -[String.append].
  by rewrite Hs.
Qed.

Lemma execute_replace_absent (self : FunctionExecutor) (s current old : string)
    (new : value) :
  CoreMemory.sections (core_memory self) !! s = Some current ->
  contains old current = false ->
  execute self "core_memory_replace"
    (VDict [("section", VStr s); ("old_content", VStr old); ("new_content", new)])
  = (Ok ("error",
         "Error executing core_memory_replace: Could not find old_content in section '"
           +:+ s +:+ "'",
         None), self).
Proof.
  intros Hs Hc. unfold execute. cbn -[String.append].
  unfold _core_memory_replace, core_memory_replace, arg. cbn -[String.append].
  by rewrite Hs, Hc.
Qed.

(** C9, as amended: [execute] always returns a triple whose status is
    ["success"] or ["error"], no exception leaves it. An unknown tool name,
    an argument value that is not an object, a missing or an unexpected
    argument field, an unknown working-context section and a replace target
    that does not occur all give the status ["error"], a message that names
    the tool and the cause, no payload and an unchanged executor. (The type
    of an argument value is not checked by [execute].) *)
Theorem execute_never_raises (self : FunctionExecutor) (name : string)
    (arguments : value) :
  (exists status msg output self',
     execute self name arguments = (Ok (status, msg, output), self') /\
     (status = "success" \/ status = "error")) /\
  (lookup_function function_map name = None ->
   execute self name arguments
   = (Ok ("error", "Unknown function: " +:+ name, None), self)) /\
  (forall sig h,
     lookup_function function_map name = Some (sig, h) ->
     (forall kwargs, arguments <> VDict kwargs) \/
     (exists kwargs, arguments = VDict kwargs /\
        (missing_argument sig kwargs \/ unexpected_argument sig kwargs)) ->
     exists detail,
       execute self name arguments
       = (Ok ("error", "Invalid arguments for " +:+ name +:+ ": " +:+ detail, None),
          self)) /\
  (forall s content,
     CoreMemory.sections (core_memory self) !! s = None ->
     execute self "core_memory_append"
       (VDict [("section", VStr s); ("content", content)])
     = (Ok ("error",
            "Error executing core_memory_append: Section '" +:+ s
              +:+ "' does not exist", None), self)) /\
  (forall s old new,
     CoreMemory.sections (core_memory self) !! s = None \/
     (exists current o, CoreMemory.sections (core_memory self) !! s = Some current /\
        old = VStr o /\ contains o current = false) ->
     execute self "core_memory_replace"
       (VDict [("section", VStr s); ("old_content", old); ("new_content", new)])
     = (Ok ("error",
            "Error executing core_memory_replace: Could not find old_content in section '"
              +:+ s +:+ "'", None), self)).
Proof.
  split; [apply execute_total |]. split; [|split; [|split]].
  - intros Hl. unfold execute. by rewrite Hl.
  - intros sig h Hl Hshape.
    assert (exists detail, bind_arguments name sig arguments = Raise (TypeError detail))
      as [detail Hb].
    { destruct Hshape as [Hnd | (kwargs & -> & [Hm | Hu])].
      - by apply bind_arguments_not_mapping.
      - by apply bind_arguments_missing.
      - by apply bind_arguments_unexpected. }
    exists detail. by eapply execute_type_error.
  - intros s content Hs. by apply execute_append_unknown_section.
  - intros s old new [Hs | (current & o & Hs & -> & Hc)].
    + by apply execute_replace_unknown_section.
    + by eapply execute_replace_absent.
Qed.

End Execute.

Lemma execute_never_raises_witness :
  execute (H := Runs.builtins) Runs.executor "core_memory_replace"
    (VDict [("section", VStr "nope"); ("old_content", VStr "a"); ("new_content", VStr "b")])
  = (Ok ("error",
         "Error executing core_memory_replace: Could not find old_content in section 'nope'",
         None), Runs.executor) /\
  (exists detail,
     execute (H := Runs.builtins) Runs.executor "send_message" (VDict [])
     = (Ok ("error", "Invalid arguments for send_message: " +:+ detail, None),
        Runs.executor)).
Proof.
  split.
  - apply (execute_never_raises (H := Runs.builtins) Runs.executor "core_memory_replace"
             (VDict [("section", VStr "nope"); ("old_content", VStr "a");
                     ("new_content", VStr "b")])).
    left. reflexivity.
  - eapply (execute_never_raises (H := Runs.builtins) Runs.executor "send_message"
              (VDict [])); [reflexivity |].
    right. exists []. split; [reflexivity |]. left.
    exists "content". split; [|reflexivity]. apply list_elem_of_here.
Defined.

(** C9 as stated fails for wrongly typed argument values: [send_message]
    takes an integer for its text, and [core_memory_append] one for the
    content to append, and both report success. *)
Lemma execute_accepts_wrong_types :
  execute (H := Runs.builtins) Runs.executor "send_message"
    (VDict [("content", VInt 42)])
  = (Ok ("success", "Function send_message executed successfully",
         Some (VDict [("status", VStr "message_sent"); ("content", VInt 42)])),
     Runs.executor) /\
  fst (execute (H := Runs.builtins) Runs.executor "core_memory_append"
         (VDict [("section", VStr "human"); ("content", VInt 42)]))
  = Ok ("success", "Function core_memory_append executed successfully",
        Some (VDict [("status", VStr "success");
                     ("message", VStr "Appended to human");
                     ("section", VStr "human")])).
Proof. split; reflexivity. Qed.

(** C7 as stated fails where it has the two failures told apart: a
    section that does not exist and a text that does not occur both make
    [replace] return [False], and the executor reports both with the same
    message. *)
Lemma replace_failures_alike :
  CoreMemory.replace CoreMemory.init "goals" "user" "person" = (false, CoreMemory.init) /\
  CoreMemory.replace CoreMemory.init "human" "admin" "person" = (false, CoreMemory.init) /\
  execute (H := Runs.builtins) Runs.executor "core_memory_replace"
    (VDict [("section", VStr "goals"); ("old_content", VStr "user");
            ("new_content", VStr "person")])
  = (Ok ("error",
         "Error executing core_memory_replace: Could not find old_content in section 'goals'",
         None), Runs.executor) /\
  execute (H := Runs.builtins) Runs.executor "core_memory_replace"
    (VDict [("section", VStr "human"); ("old_content", VStr "admin");
            ("new_content", VStr "person")])
  = (Ok ("error",
         "Error executing core_memory_replace: Could not find old_content in section 'human'",
         None), Runs.executor).
Proof. repeat split; reflexivity. Qed.

End FunctionExecutorProps.

(** ** The heartbeat loop *)

Module MemGPTAgentProps.
Import Py MemGPTAgent.

Section Loop.
Context `{Builtins}.

Lemma dispatch_exit (self : MemGPTAgent) (iteration : nat) (name : string)
    (arguments : value) (e : loop_exit) (self' : MemGPTAgent) :
  dispatch self iteration name arguments = (Some e, self') ->
  completions e = iteration.
Proof.
  unfold dispatch.
  destruct (FunctionExecutor.execute _ _ _) as [[[[st msg] out]|ex] fe].
  - repeat case_match; intros [= <- _]; done.
  - by intros [= <- _].
Qed.

Lemma monologue_exit (self : MemGPTAgent) (iteration : nat) (c : Completion)
    (e : loop_exit) (self' : MemGPTAgent) :
  monologue self iteration c = (Some e, self') -> completions e = iteration.
Proof. unfold monologue. case_match; intros [= <- _]; done. Qed.

(** The loop requests at most [remaining] further completions. *)
Lemma heartbeat_completions (remaining iteration : nat) (self : MemGPTAgent) :
  (iteration <= completions (fst (heartbeat remaining iteration self))
   <= iteration + remaining)%nat.
Proof.
  revert iteration self.
  induction remaining as [|remaining IH]; intros iteration self; simpl; [lia |].
  destruct (client self (S iteration) _ _) as [c|e]; simpl; [|lia].
  destruct (match tool_call c with
            | Some (function_name, arguments) =>
                dispatch self (S iteration) function_name arguments
            | None => monologue self (S iteration) c
            end) as [[e|] self'] eqn:E.
  - assert (completions e = S iteration) as Hc.
    { destruct (tool_call c) as [[name arguments]|].
      - by eapply dispatch_exit.
      - by eapply monologue_exit. }
    simpl. lia.
  - specialize (IH (S iteration) self'). lia.
Qed.

(** The condition of the [while] turns false after [max_iterations]
    completions only. *)
Lemma heartbeat_exhausted (remaining iteration n : nat) (self : MemGPTAgent) :
  fst (heartbeat remaining iteration self) = Exhausted n ->
  n = (iteration + remaining)%nat.
Proof.
  revert iteration self.
  induction remaining as [|remaining IH]; intros iteration self; simpl.
  - intros [= <-]. lia.
  - destruct (client self (S iteration) _ _) as [c|e]; simpl; [|done].
    destruct (match tool_call c with
              | Some (function_name, arguments) =>
                  dispatch self (S iteration) function_name arguments
              | None => monologue self (S iteration) c
              end) as [[e|] self'] eqn:E.
    + simpl. intros ->.
      destruct (tool_call c) as [[name arguments]|].
      * unfold dispatch in E.
        destruct (FunctionExecutor.execute _ _ _) as [[[[st msg] out]|ex] fe];
          repeat case_match; simplify_eq.
      * unfold monologue in E. case_match; simplify_eq.
    + intros Hx. apply IH in Hx. lia.
Qed.

(** [break] is taken only after a [send_message] call that did not
    succeed. *)
Lemma dispatch_break (self self' : MemGPTAgent) (iteration n : nat) (name : string)
    (arguments : value) :
  dispatch self iteration name arguments = (Some (Break n), self') ->
  name = "send_message" /\
  exists st msg out fe,
    FunctionExecutor.execute (function_executor self) name arguments
    = (Ok (st, msg, out), fe) /\ st <> "success".
Proof.
  unfold dispatch.
  destruct (FunctionExecutor.execute _ _ _) as [[[[st msg] out]|ex] fe]; [|done].
  destruct (String.eqb_spec name "send_message") as [->|Hne]; simpl.
  - destruct (String.eqb_spec st "success") as [->|Hst]; simpl; [done |].
    intros _. split; [done |]. by exists st, msg, out, fe.
  - unfold FunctionExecutor.should_continue_heartbeat.
    destruct (String.eqb_spec name "send_message"); done.
Qed.

(** [step] requests at most [max_iterations] completions. *)
Lemma step_completions (self : MemGPTAgent) (user_message : option string) :
  (completions (fst (heartbeat max_iterations 0 (enter self user_message)))
   <= max_iterations)%nat.
Proof.
  pose proof (heartbeat_completions max_iterations 0 (enter self user_message)). lia.
Qed.

End Loop.

(** C5 fails on the code: when the model's first answer is the tool call
    [send_message] with the argument object [{}], the call is an error, the
    loop is left by [break] after one completion, and [step] returns the
    status ["max_iterations"] with [iterations = 1], nine short of the cap. *)
Theorem step_break_reports_max_iterations :
  fst (step (H := Runs.builtins) (Runs.agent Runs.bare_send_message) (Some "hi"))
  = Ok {| status := "max_iterations";
          message := VStr "Maximum iterations reached in heartbeat loop";
          function := None; thought := None; iterations := Some 1%nat |} /\
  (1 < max_iterations)%nat.
Proof. split; [vm_compute; reflexivity | unfold max_iterations; lia]. Qed.

(** The status as intended: a model that never stops searching is cut off
    after ten completions. *)
Lemma step_cap_reached :
  fst (step (H := Runs.builtins) (Runs.agent Runs.always_search) (Some "hi"))
  = Ok {| status := "max_iterations";
          message := VStr "Maximum iterations reached in heartbeat loop";
          function := None; thought := None; iterations := Some 10%nat |}.
Proof. vm_compute. reflexivity. Qed.

End MemGPTAgentProps.

(** ** Further properties of the token counter *)

Module TokenCounterExtra.
Import Py TokenCounter PyFacts TokenCounterProps.
Local Open Scope Z_scope.
#[local] Arguments String.append !_ _ / : simpl nomatch.

Section Counting.
Context `{Builtins}.
Variable tk : TokenCounter.

(** Counting two non-empty lists together counts the primer once: the
    count of the concatenation is the sum of the counts less 2. *)
Theorem count_message_tokens_app (l1 l2 : list dict) :
  l1 <> [] -> l2 <> [] ->
  count_message_tokens tk (l1 ++ l2)
  = count_message_tokens tk l1 + count_message_tokens tk l2 - 2.
Proof.
  intros H1 H2.
  destruct l1 as [|m1 l1]; [done |]. destruct l2 as [|m2 l2]; [done |].
  change ((m1 :: l1) ++ m2 :: l2) with (m1 :: (l1 ++ m2 :: l2)).
  rewrite !count_message_tokens_cons, messages_tokens_app. simpl. lia.
Qed.

Lemma messages_tokens_overhead (messages : list dict) :
  4 * Z.of_nat (length messages) <= messages_tokens tk messages.
Proof.
  induction messages as [|m messages IH]; [simpl; lia |].
  cbn [length messages_tokens foldr]. fold (messages_tokens tk messages).
  pose proof (message_tokens_pos tk m). lia.
Qed.

(** Every message costs at least its overhead: a non-empty list of [n]
    messages counts at least [4 n + 2] tokens, whatever the encoding. *)
Theorem count_message_tokens_overhead (messages : list dict) :
  messages <> [] ->
  4 * Z.of_nat (length messages) + 2 <= count_message_tokens tk messages.
Proof.
  intros Hne. destruct messages as [|m messages]; [done |].
  rewrite count_message_tokens_cons.
  pose proof (messages_tokens_overhead (m :: messages)) as Ho.
  cbn [messages_tokens foldr] in Ho. fold (messages_tokens tk messages) in Ho. lia.
Qed.

(** [estimate_tokens_remaining] is what is left of the window, and 0 once
    the messages fill it or exceed it; it is never negative and never more
    than the window. *)
Theorem estimate_tokens_remaining_bounds (messages : list dict) (max_tokens : Z) :
  let used := count_message_tokens tk messages in
  let remaining := estimate_tokens_remaining tk messages max_tokens in
  0 <= remaining <= Z.max 0 max_tokens /\
  (used <= max_tokens -> remaining + used = max_tokens) /\
  (max_tokens <= used -> remaining = 0).
Proof.
  intros used remaining. subst remaining. unfold estimate_tokens_remaining. fold used.
  assert (0 <= used).
  { subst used. destruct messages as [|m messages]; [done |].
    rewrite count_message_tokens_cons.
    pose proof (message_tokens_pos tk m).
    pose proof (messages_tokens_nonneg tk messages). lia. }
  lia.
Qed.

End Counting.

Lemma count_message_tokens_app_witness :
  count_message_tokens (H := Runs.builtins) char_counter
    ([[("role", VStr "user")]] ++ [[("content", VStr "hi")]])
  = count_message_tokens (H := Runs.builtins) char_counter [[("role", VStr "user")]]
    + count_message_tokens (H := Runs.builtins) char_counter [[("content", VStr "hi")]]
    - 2.
Proof.
  apply (count_message_tokens_app (H := Runs.builtins) char_counter); done.
Defined.

Lemma count_message_tokens_overhead_witness :
  4 * Z.of_nat (length [[("role", VStr "user")]; [("n", VInt 1)]]) + 2
  <= count_message_tokens (H := Runs.builtins) char_counter
       [[("role", VStr "user")]; [("n", VInt 1)]].
Proof.
  apply (count_message_tokens_overhead (H := Runs.builtins) char_counter); done.
Defined.

End TokenCounterExtra.

(** ** Further properties of the working context *)

Module CoreMemoryExtra.
Import Py CoreMemory PyFacts CoreMemoryProps.
#[local] Arguments String.append !_ _ / : simpl nomatch.

(** [append] succeeds exactly on an existing section; the section then
    reads as before followed by a line feed and the content, every other
    section reads as before, and a failed [append] changes nothing. *)
Theorem append_get_section (self : CoreMemory) (section content : string) :
  let result := append self section content in
  (fst result = true <-> is_Some (get_section self section)) /\
  (forall current, get_section self section = Some current ->
     get_section (snd result) section = Some (current +:+ nl +:+ content)) /\
  (forall other, other <> section ->
     get_section (snd result) other = get_section self other) /\
  (fst result = false -> snd result = self).
Proof.
  unfold append, get_section.
  destruct (sections self !! section) as [current|] eqn:Hs; simpl.
  - split; [by split; eauto |]. split; [|split].
    + intros ? [= <-]. by rewrite lookup_insert_eq.
    + intros other Hne. by rewrite lookup_insert_ne.
    + done.
  - split; [split; [done | by intros [? ?]] |]. by repeat split.
Qed.

(** Creating a section that did not exist and deleting it again gives back
    the working context as it was. *)
Theorem create_delete_section (self : CoreMemory) (section initial : string) :
  get_section self section = None ->
  fst (create_section self section initial) = true /\
  get_section (snd (create_section self section initial)) section = Some initial /\
  delete_section (snd (create_section self section initial)) section = (true, self).
Proof.
  unfold get_section, create_section, delete_section. intros Hs. rewrite Hs. simpl.
  rewrite lookup_insert_eq. repeat split.
  rewrite delete_insert_eq, delete_id by done. by destruct self.
Qed.

Lemma create_delete_section_witness :
  delete_section (snd (create_section init "goals" "ship it")) "goals" = (true, init).
Proof. apply (create_delete_section init "goals" "ship it"). reflexivity. Defined.

(** [create_section] does not overwrite: on an existing section it fails
    and changes nothing. [delete_section] fails on a missing section and
    changes nothing; after a successful delete the section is gone and the
    others read as before. *)
Theorem create_delete_guards (self : CoreMemory) (section initial : string) :
  (is_Some (get_section self section) ->
     create_section self section initial = (false, self)) /\
  (get_section self section = None -> delete_section self section = (false, self)) /\
  (is_Some (get_section self section) ->
     fst (delete_section self section) = true /\
     get_section (snd (delete_section self section)) section = None /\
     forall other, other <> section ->
       get_section (snd (delete_section self section)) other = get_section self other).
Proof.
  unfold get_section, create_section, delete_section.
  destruct (sections self !! section) as [current|] eqn:Hs; simpl.
  - split; [done |]. split; [done |]. intros _. split; [done |]. split.
    + apply lookup_delete_eq.
    + intros other Hne. by apply lookup_delete_ne.
  - split; [by intros [? ?] |]. split; [done |]. by intros [? ?].
Qed.

Lemma create_delete_guards_witness :
  create_section init "human" "" = (false, init) /\
  delete_section init "goals" = (false, init).
Proof.
  split.
  - apply (create_delete_guards init "human" ""). by eexists.
  - apply (create_delete_guards init "goals" ""). reflexivity.
Defined.

(** [append] and [replace] neither create nor delete a section, and
    [replace] leaves every section but the named one as it was. *)
Theorem append_replace_keep_sections (self : CoreMemory)
    (section content old new : string) :
  dom (sections (snd (append self section content))) = dom (sections self) /\
  dom (sections (snd (replace self section old new))) = dom (sections self) /\
  forall other, other <> section ->
    get_section (snd (replace self section old new)) other = get_section self other.
Proof.
  unfold append, replace, get_section.
  destruct (sections self !! section) as [current|] eqn:Hs; simpl; [|done].
  assert (forall v, dom (<[section := v]> (sections self)) = dom (sections self)) as Hdom.
  { intros v. rewrite dom_insert_L. apply subseteq_union_1_L.
    apply singleton_subseteq_l, elem_of_dom. eauto. }
  split; [apply Hdom |].
  destruct (contains old current); simpl; [|done].
  split; [apply Hdom |]. intros other Hne. by rewrite lookup_insert_ne.
Qed.

Lemma replace_once_same (old s : string) : replace_once old old s = s.
Proof.
  induction s as [|c s IH]; simpl.
  - destruct (startswith old "") eqn:E; [|done].
    apply startswith_inv in E as [post E].
    destruct old; [done | discriminate].
  - destruct (startswith old (String c s)) eqn:E; [|by rewrite IH].
    apply startswith_inv in E as [post E]. rewrite E at 2.
    rewrite E, str_drop_app. done.
Qed.

(** Replacing a text by itself succeeds wherever the text occurs and leaves
    the working context as it was. *)
Theorem replace_by_itself (self : CoreMemory) (section old current : string) :
  get_section self section = Some current ->
  contains old current = true ->
  replace self section old old = (true, self).
Proof.
  unfold get_section, replace. intros Hs Hc. rewrite Hs, Hc. simpl.
  rewrite replace_once_same, insert_id by done. by destruct self.
Qed.

Lemma replace_by_itself_witness :
  replace init "human" "user" "user" = (true, init).
Proof.
  apply (replace_by_itself init "human" "user" "No information about the user yet.");
    reflexivity.
Defined.

End CoreMemoryExtra.

(** ** Further properties of the queue manager *)

Module QueueManagerExtra.
Import Py TokenCounter QueueManager TokenCounterProps QueueManagerProps.
#[local] Arguments String.append !_ _ / : simpl nomatch.

Section Queue.
Context `{Builtins}.

(** [clear_queue] always leaves exactly one slot and never touches the
    recall store; with [keep_summary] on a non-empty queue the summary is
    the one from before the clear. *)
Theorem clear_queue_keeps_summary (self : QueueManager) (keep_summary : bool) :
  length (queue (clear_queue self keep_summary)) = 1%nat /\
  recall_storage (clear_queue self keep_summary) = recall_storage self /\
  (queue self <> [] -> get_summary (clear_queue self true) = get_summary self).
Proof.
  unfold clear_queue, get_summary.
  destruct (queue self) as [|m q] eqn:Hq; destruct keep_summary; simpl; rewrite ?Hq; done.
Qed.

Lemma clear_queue_keeps_summary_witness :
  get_summary (clear_queue Runs.warned_once true) = get_summary Runs.warned_once.
Proof. apply (clear_queue_keeps_summary Runs.warned_once true). done. Defined.

(** [set_summary] then [get_summary] returns the text that was set; the
    messages behind slot 0 are the same as before, and the new slot 0 has
    the role [system]. *)
Theorem set_summary_get_summary (self : QueueManager) (summary : string) :
  get_summary (set_summary self summary) = summary /\
  drop 1 (queue (set_summary self summary)) = drop 1 (queue self) /\
  (role <$> head (queue (set_summary self summary))) = Some "system" /\
  recall_storage (set_summary self summary) = recall_storage self.
Proof.
  unfold set_summary, get_summary. by destruct (queue self) as [|m q].
Qed.

Lemma evict_messages_recall (self : QueueManager) (old m : Message)
    (rest : list Message) :
  queue self = old :: m :: rest ->
  let k := Nat.max 1 ((length (queue self) - 1) / 3) in
  exists rows,
    recall_storage (_evict_messages self) = recall_storage self ++ rows /\
    map (fun r => (row_role r, row_content r)) rows
    = map (fun m => (role m, content m)) (take k (m :: rest)).
Proof.
  intros Hq k. subst k. unfold _evict_messages. rewrite Hq.
  set (k := Nat.max 1 _). cbn [recall_storage with_queue with_recall].
  unfold slice. replace (k + 1 - 1)%nat with k by lia. cbn [drop].
  apply insert_messages_rows.
Qed.

Lemma evict_messages_history_moved (self : QueueManager) (old m : Message)
    (rest : list Message) :
  queue self = old :: m :: rest ->
  history (_evict_messages self) = history self.
Proof.
  intros Hq.
  destruct (evict_messages_queue self old m rest Hq) as (new & Hq').
  destruct (evict_messages_recall self old m rest Hq) as (rows & Hr & Hrows).
  unfold history. rewrite Hq', Hr, Hq in *. cbn [drop].
  set (k := Nat.max 1 _) in *.
  rewrite drop_0, map_app, Hrows, <- app_assoc, <- map_app, take_drop. done.
Qed.

(** An eviction loses nothing and reorders nothing: the rows of the recall
    store followed by the messages behind slot 0 are, role by role and
    content by content, the same sequence before and after. *)
Theorem evict_messages_history (self : QueueManager) :
  history (_evict_messages self) = history self.
Proof.
  destruct (queue self) as [|old [|m rest]] eqn:Hq.
  - unfold _evict_messages. by rewrite Hq.
  - unfold _evict_messages. by rewrite Hq.
  - by eapply evict_messages_history_moved.
Qed.

Lemma history_snoc (self : QueueManager) (m : Message) :
  queue self <> [] ->
  history (with_queue self (queue self ++ [m]))
  = history self ++ [(role m, content m)].
Proof.
  intros Hne. unfold history. cbn [queue recall_storage with_queue].
  destruct (queue self) as [|s q]; [done |]. cbn [app drop].
  by rewrite !drop_0, map_app, app_assoc.
Qed.

(** On a queue that has its slot 0, [add_message] extends the history by
    the message, and by the pressure warning when it returns [True];
    whether or not it evicts, nothing that was there is lost or moved. *)
Theorem add_message_history (self : QueueManager) (r c : string) (md : option dict) :
  queue self <> [] ->
  history (snd (add_message self r c md))
  = history self ++ (r, c) ::
      (if fst (add_message self r c md)
       then [(role warning_msg, content warning_msg)] else []).
Proof.
  intros Hne. unfold add_message.
  set (m := make_message r c md). set (queued := with_queue self (queue self ++ [m])).
  assert (history queued = history self ++ [(r, c)]) as Hq
    by (by apply history_snoc).
  destruct (fst (_check_memory_pressure queued)) eqn:E.
  - rewrite (check_memory_pressure_true _ E). cbn [snd].
    change (history (log (with_queue queued (queue queued ++ [warning_msg])) Warned))
      with (history (with_queue queued (queue queued ++ [warning_msg]))).
    rewrite history_snoc, Hq, <- app_assoc; [done |].
    cbn. by destruct (queue self).
  - rewrite (check_memory_pressure_false _ E). unfold flush_check.
    destruct (at_least _ _ _); cbn [snd]; [|done].
    destruct (queue queued) as [|old [|m' rest]] eqn:Hshape.
    + cbn in Hshape. by destruct (queue self).
    + cbn in Hshape. by destruct (queue self) as [|? [|? ?]].
    + by rewrite (evict_messages_history_moved queued old m' rest Hshape), Hq.
Qed.

Lemma evict_messages_recall_prefix (self : QueueManager) :
  recall_storage self `prefix_of` recall_storage (_evict_messages self).
Proof.
  destruct (queue self) as [|old [|m rest]] eqn:Hq;
    try (unfold _evict_messages; by rewrite Hq).
  destruct (evict_messages_recall self old m rest Hq) as (rows & -> & _).
  by exists rows.
Qed.

Lemma apply_recall_prefix (self : QueueManager) (o : op) :
  recall_storage self `prefix_of` recall_storage (apply self o).
Proof.
  destruct o as [r c md|keep|s|]; cbn [apply].
  - unfold add_message, _check_memory_pressure, flush_check.
    repeat case_match; cbn [snd]; try done;
      apply (evict_messages_recall_prefix (with_queue self _)).
  - unfold clear_queue. by repeat case_match.
  - unfold set_summary. by case_match.
  - apply evict_messages_recall_prefix.
Qed.

(** The queue manager only ever appends to the recall store: whatever
    sequence of adds, clears, summary updates and evictions is run, the rows
    stored before are still there, unchanged and in front. *)
Theorem run_recall_append_only (self : QueueManager) (ops : list op) :
  recall_storage self `prefix_of` recall_storage (run self ops).
Proof.
  revert self. induction ops as [|o ops IH]; intros self; [done |].
  cbn. etrans; [apply (apply_recall_prefix self o) | apply IH].
Qed.

Lemma get_queue_size_nonneg (self : QueueManager) : (0 <= get_queue_size self)%Z.
Proof.
  rewrite get_queue_size_sum. destruct (queue self); [done |].
  pose proof (queue_tokens_nonneg self (m :: l)). lia.
Qed.

(** On a window of more than 0 tokens [get_usage_percentage] returns a
    fraction between 0 and 1, and 1 once the count reaches the window; on a
    window of 0 tokens the division fails. *)
Theorem get_usage_percentage_bounds (self : QueueManager) :
  (max_tokens self = 0%Z -> get_usage_percentage self = None) /\
  ((0 < max_tokens self)%Z ->
   exists u, get_usage_percentage self = Some u /\
             (0 <= u)%Q /\ (u <= 1)%Q /\
             ((max_tokens self <= get_queue_size self)%Z -> (u == 1)%Q)).
Proof.
  unfold get_usage_percentage. split; [by intros -> |]. intros Hpos.
  destruct (Z.eqb_spec (max_tokens self) 0) as [Hz|_]; [lia |].
  pose proof (get_queue_size_nonneg self) as Hsize.
  set (t := get_queue_size self) in *. set (mx := max_tokens self) in *.
  assert (0 < inject_Z mx)%Q as Hmx
    by (change 0%Q with (inject_Z 0); by rewrite <- Zlt_Qlt).
  assert (0 <= inject_Z t / inject_Z mx)%Q as Hratio.
  { apply Qle_shift_div_l; [done |]. rewrite Qmult_0_l.
    change 0%Q with (inject_Z 0). by rewrite <- Zle_Qle. }
  destruct (Qle_bool 1 (inject_Z t / inject_Z mx)) eqn:E.
  - exists 1%Q. repeat split; try done.
  - exists (inject_Z t / inject_Z mx)%Q. split; [done |]. split; [done |].
    assert (~ (1 <= inject_Z t / inject_Z mx)%Q) as Hlt.
    { intros Hle. apply Qle_bool_iff in Hle. congruence. }
    split; [apply Qlt_le_weak; by apply Qnot_le_lt |].
    intros Hfull. exfalso. apply Hlt.
    apply Qle_shift_div_l; [done |]. rewrite Qmult_1_l. by rewrite <- Zle_Qle.
Qed.

(** Where the two products [max_tokens * warning_threshold] and
    [max_tokens * flush_threshold], as the floats the code computes, are
    numbers and the first is below the second, adding a message that is not
    itself a memory-pressure system message never evicts: the call appends
    the message, and the warning when it returns [True], and leaves the
    recall store alone. *)
Theorem add_message_only_appends (self : QueueManager) (r c : string)
    (md : option dict) :
  fits_float (max_tokens self) = true ->
  (exists warning flush,
     float_value (int_mul_float (max_tokens self) (warning_threshold self))
     = Some warning /\
     float_value (int_mul_float (max_tokens self) (flush_threshold self))
     = Some flush /\
     (warning < flush)%Q) ->
  is_pressure_message (make_message r c md) = false ->
  queue (snd (add_message self r c md))
  = queue self ++ make_message r c md ::
      (if fst (add_message self r c md) then [warning_msg] else []) /\
  recall_storage (snd (add_message self r c md)) = recall_storage self.
Proof.
  intros _ (w & f & Hw & Hf & Hwf) Hm. unfold add_message.
  set (m := make_message r c md) in *.
  set (queued := with_queue self (queue self ++ [m])).
  unfold _check_memory_pressure.
  change (queue queued) with (queue self ++ [m]).
  rewrite last_is_pressure_message_snoc, Hm. cbn [negb].
  destruct (above _ _ _) eqn:Ea; cbn [fst snd].
  - cbn. by rewrite <- app_assoc.
  - unfold flush_check.
    destruct (at_least _ _ _) eqn:El; cbn [fst snd]; [|done].
    exfalso. unfold above in Ea. unfold at_least in El.
    change (max_tokens queued) with (max_tokens self) in *.
    change (warning_threshold queued) with (warning_threshold self) in *.
    change (flush_threshold queued) with (flush_threshold self) in *.
    rewrite (int_gt_float_value _ _ _ Hw) in Ea.
    rewrite (int_ge_float_value _ _ _ Hf) in El.
    apply negb_false_iff, Qle_bool_iff in Ea. apply Qle_bool_iff in El.
    apply (Qlt_not_le _ _ Hwf). by eapply Qle_trans.
Qed.

End Queue.

Lemma get_usage_percentage_bounds_witness :
  exists u, get_usage_percentage (H := Runs.builtins) Runs.tight = Some u /\
            (0 <= u)%Q /\ (u <= 1)%Q /\
            ((max_tokens Runs.tight <= get_queue_size (H := Runs.builtins) Runs.tight)%Z ->
             (u == 1)%Q).
Proof.
  apply (proj2 (get_usage_percentage_bounds (H := Runs.builtins) Runs.tight)).
  simpl. lia.
Defined.

Lemma add_message_history_witness :
  history (snd (add_message (H := Runs.builtins) Runs.tight "user" "hello" None))
  = history Runs.tight ++ ("user", "hello") ::
      (if fst (add_message (H := Runs.builtins) Runs.tight "user" "hello" None)
       then [(role warning_msg, content warning_msg)] else []).
Proof.
  apply (add_message_history (H := Runs.builtins) Runs.tight "user" "hello" None).
  done.
Defined.

Lemma add_message_only_appends_witness :
  queue (snd (add_message (H := Runs.builtins) Runs.tight "user" "hello" None))
  = queue Runs.tight ++ make_message "user" "hello" None ::
      (if fst (add_message (H := Runs.builtins) Runs.tight "user" "hello" None)
       then [warning_msg] else []) /\
  recall_storage (snd (add_message (H := Runs.builtins) Runs.tight "user" "hello" None))
  = recall_storage Runs.tight.
Proof.
  apply (add_message_only_appends (H := Runs.builtins) Runs.tight "user" "hello" None);
    [by vm_compute | | reflexivity].
  eexists _, _. split; [by vm_compute |]. split; by vm_compute.
Defined.

End QueueManagerExtra.

(** ** Further properties of the tool executor *)

Module FunctionExecutorExtra.
Import Py FunctionExecutor PyFacts.
#[local] Arguments String.append !_ _ / : simpl nomatch.

Section Execute.
Context `{Builtins}.

(** What every handler of the dispatch table respects: the page size is
    never replaced, a handler that raises leaves the working context as it
    was, and so does every handler but the two that write to it. *)
Lemma handlers_frame (name : string) (sig : signature) (h : handler)
    (self : FunctionExecutor) (bound : dict) :
  lookup_function function_map name = Some (sig, h) ->
  page_size (snd (h self bound)) = page_size self /\
  (forall e, fst (h self bound) = Raise e ->
     core_memory (snd (h self bound)) = core_memory self) /\
  (name <> "core_memory_append" -> name <> "core_memory_replace" ->
   core_memory (snd (h self bound)) = core_memory self).
Proof.
  intros Hl. unfold function_map in Hl. cbn [lookup_function] in Hl.
  repeat match type of Hl with
         | (if String.eqb ?a name then _ else _) = _ =>
             destruct (String.eqb_spec a name) as [<-|?]; [injection Hl as <- <- |]
         end; try done.
  - unfold _core_memory_append, core_memory_append, CoreMemory.append.
    repeat case_match; simplify_eq; simpl; done.
  - unfold _core_memory_replace, core_memory_replace, CoreMemory.replace.
    repeat case_match; simplify_eq; simpl; done.
Qed.

(** The working context under [execute]: a call that ends in an error
    leaves [core_memory] as it was, only [core_memory_append] and
    [core_memory_replace] can change it, and no call replaces the page
    size. *)
Theorem execute_frame (self : FunctionExecutor) (name : string) (arguments : value) :
  page_size (snd (execute self name arguments)) = page_size self /\
  (forall msg out, fst (execute self name arguments) = Ok ("error", msg, out) ->
     core_memory (snd (execute self name arguments)) = core_memory self) /\
  (name <> "core_memory_append" -> name <> "core_memory_replace" ->
   core_memory (snd (execute self name arguments)) = core_memory self).
Proof.
  unfold execute.
  destruct (lookup_function function_map name) as [[sig h]|] eqn:Hl; [|done].
  destruct (bind_arguments name sig arguments) as [bound|e].
  - destruct (handlers_frame name sig h self bound Hl) as (Hp & Hr & Hn).
    destruct (h self bound) as [[v|e] self'] eqn:Eh; cbn [fst snd] in *.
    + repeat split; try done.
    + specialize (Hr e eq_refl). destruct e; simpl; done.
  - destruct e; simpl; done.
Qed.

Lemma has_key_elem_of (k : string) (ks : list string) :
  has_key k ks = true <-> k ∈ ks.
Proof.
  unfold has_key. rewrite existsb_exists. split.
  - intros (x & Hx & ->%String.eqb_eq). by apply list_elem_of_In.
  - intros Hk. exists k. split; [by apply list_elem_of_In | apply String.eqb_refl].
Qed.

Lemma dict_get_app_l (d1 d2 : dict) (k : string) (v : value) :
  dict_get d1 k = Some v -> dict_get (d1 ++ d2) k = Some v.
Proof.
  induction d1 as [|[k' v'] d1 IH]; simpl; [done |].
  by destruct (String.eqb k' k).
Qed.

(** An argument object with every required parameter and none the handler
    does not have is bound, each given value under its name. *)
Lemma bind_arguments_ok (fname : string) (sig : signature) (kwargs : dict) :
  (forall p, p ∈ required sig -> p ∈ map fst kwargs) ->
  (forall k, k ∈ map fst kwargs -> k ∈ required sig ++ map fst (optional sig)) ->
  exists bound,
    bind_arguments fname sig (VDict kwargs) = Ok bound /\
    forall k v, dict_get kwargs k = Some v -> dict_get bound k = Some v.
Proof.
  intros Hreq Hknown. simpl.
  destruct (find _ (map fst kwargs)) as [k|] eqn:Ef.
  { apply find_some in Ef as [Hin Hk]. apply list_elem_of_In, Hknown in Hin.
    apply has_key_elem_of in Hin. by rewrite Hin in Hk. }
  destruct (List.filter _ (required sig)) as [|p ps] eqn:Em.
  - eexists. split; [done |]. intros k v. apply dict_get_app_l.
  - assert (In p (List.filter (fun p => negb (has_key p (map fst kwargs))) (required sig)))
      as Hin by (rewrite Em; by left).
    apply filter_In in Hin as [Hin Hp]. apply list_elem_of_In, Hreq in Hin.
    apply has_key_elem_of in Hin. by rewrite Hin in Hp.
Qed.

(** Every tool advertised to the model is one the executor dispatches,
    and a call that conforms to its advertised schema (every required
    property present, no property the schema lacks) is bound to the handler
    without an argument error, each given value under its name. *)
Theorem schema_calls_bind (sch : Schema.schema) (kwargs : dict) :
  sch ∈ Schema.FUNCTION_SCHEMAS ->
  Schema.conforms sch kwargs ->
  exists sig h bound,
    lookup_function function_map (Schema.name sch) = Some (sig, h) /\
    bind_arguments (Schema.name sch) sig (VDict kwargs) = Ok bound /\
    forall k v, dict_get kwargs k = Some v -> dict_get bound k = Some v.
Proof.
  intros Hsch [Hreq Hknown]. unfold Schema.FUNCTION_SCHEMAS in Hsch.
  repeat (apply elem_of_cons in Hsch as [-> | Hsch]);
    [.. | by apply elem_of_nil in Hsch];
    (eexists _, _; cbn [Schema.name lookup_function function_map String.eqb Ascii.eqb
                        Bool.eqb];
     cbn in Hreq, Hknown;
     edestruct (bind_arguments_ok) as (bound & Hb & Hv);
     [| | exists bound; split; [reflexivity | split; [exact Hb | exact Hv]]];
     [exact Hreq | exact Hknown]).
Qed.

(** The advertised names are the dispatched names, in the same order. *)
Lemma schema_names_dispatch :
  map Schema.name Schema.FUNCTION_SCHEMAS = map fst function_map.
Proof. reflexivity. Qed.

(** A [core_memory_append] on an existing section, made through the
    executor, succeeds and stores the old text, a line feed and the content
    as the model's f-string formats it. *)
Theorem execute_append_existing (self : FunctionExecutor) (s current : string)
    (content : value) :
  CoreMemory.sections (core_memory self) !! s = Some current ->
  execute self "core_memory_append" (VDict [("section", VStr s); ("content", content)])
  = (Ok ("success", "Function core_memory_append executed successfully",
         Some (VDict [("status", VStr "success");
                      ("message", VStr ("Appended to " +:+ s));
                      ("section", VStr s)])),
     with_core_memory self
       {| CoreMemory.sections :=
            <[s := current +:+ nl +:+ format content]>
              (CoreMemory.sections (core_memory self)) |}).
Proof.
  intros Hs. unfold execute. cbn -[String.append].
  unfold _core_memory_append, core_memory_append, arg. cbn -[String.append].
  unfold CoreMemory.append. by rewrite Hs.
Qed.

(** The two search tools take their page from the call or default it to
    0: a call without [page] is the call with [page = 0]. *)
Theorem search_default_page (self : FunctionExecutor) (name : string) (query : value) :
  name = "archival_memory_search" \/ name = "conversation_search" ->
  execute self name (VDict [("query", query)])
  = execute self name (VDict [("query", query); ("page", VInt 0)]).
Proof. intros [-> | ->]; reflexivity. Qed.

End Execute.

Lemma schema_calls_bind_witness :
  exists sig h bound,
    lookup_function (function_map (H := Runs.builtins)) "archival_memory_search"
    = Some (sig, h) /\
    bind_arguments "archival_memory_search" sig (VDict [("query", VStr "tea")])
    = Ok bound /\
    forall k v, dict_get [("query", VStr "tea")] k = Some v -> dict_get bound k = Some v.
Proof.
  apply (schema_calls_bind (H := Runs.builtins)
           {| Schema.name := "archival_memory_search";
              Schema.properties := [("query", "string"); ("page", "integer")];
              Schema.required := ["query"] |} [("query", VStr "tea")]).
  - unfold Schema.FUNCTION_SCHEMAS. do 4 apply list_elem_of_further.
    apply list_elem_of_here.
  - split; simpl; intros x Hx.
    + exact Hx.
    + apply list_elem_of_singleton in Hx as ->. apply list_elem_of_here.
Defined.

Lemma execute_append_existing_witness :
  fst (execute (H := Runs.builtins) Runs.executor "core_memory_append"
         (VDict [("section", VStr "human"); ("content", VStr "name=Alice")]))
  = Ok ("success", "Function core_memory_append executed successfully",
        Some (VDict [("status", VStr "success");
                     ("message", VStr "Appended to human");
                     ("section", VStr "human")])).
Proof.
  rewrite (execute_append_existing (H := Runs.builtins) Runs.executor "human"
             "No information about the user yet." (VStr "name=Alice"));
    reflexivity.
Defined.

Lemma search_default_page_witness :
  execute (H := Runs.builtins) Runs.executor "conversation_search"
    (VDict [("query", VStr "tea")])
  = execute (H := Runs.builtins) Runs.executor "conversation_search"
      (VDict [("query", VStr "tea"); ("page", VInt 0)]).
Proof.
  apply (search_default_page (H := Runs.builtins) Runs.executor "conversation_search").
  by right.
Defined.

End FunctionExecutorExtra.

(** ** Further properties of the agent *)

Module MemGPTAgentExtra.
Import Py MemGPTAgent MemGPTAgentProps.
#[local] Arguments String.append !_ _ / : simpl nomatch.

Section Turn.
Context `{Builtins}.

(** The statuses of the outcomes returned from inside the loop. *)
Lemma dispatch_exit_shape (self self' : MemGPTAgent) (iteration : nat)
    (name : string) (arguments : value) (e : loop_exit) :
  dispatch self iteration name arguments = (Some e, self') ->
  match e with
  | Return n o => n = iteration /\ status o = "success" /\ iterations o = Some n
  | Break _ => True
  | Exhausted _ | Raised _ _ => False
  end.
Proof.
  unfold dispatch.
  pose proof (FunctionExecutorProps.execute_total
                (function_executor self) name arguments)
    as (st & msg & out & fe & -> & _).
  repeat case_match; intros ?; simplify_eq; done.
Qed.

Lemma monologue_exit_shape (self self' : MemGPTAgent) (iteration : nat)
    (c : Completion) (e : loop_exit) :
  monologue self iteration c = (Some e, self') ->
  match e with
  | Return n o => n = iteration /\ status o = "no_message" /\ iterations o = Some n
  | _ => False
  end.
Proof. unfold monologue. case_match; intros ?; simplify_eq; done. Qed.

Lemma heartbeat_exit_shape (remaining iteration : nat) (self : MemGPTAgent) :
  match fst (heartbeat remaining iteration self) with
  | Return n o =>
      (status o = "success" \/ status o = "no_message" \/ status o = "error") /\
      (iterations o = Some n \/ iterations o = None)
  | Break _ | Exhausted _ => True
  | Raised _ _ => False
  end.
Proof.
  revert iteration self.
  induction remaining as [|remaining IH]; intros iteration self; simpl; [done |].
  destruct (client self (S iteration) _ _) as [c|e]; simpl; [|by eauto].
  destruct (match tool_call c with
            | Some (function_name, arguments) =>
                dispatch self (S iteration) function_name arguments
            | None => monologue self (S iteration) c
            end) as [[e|] self'] eqn:E; simpl; [|apply IH].
  destruct (tool_call c) as [[name arguments]|].
  - apply dispatch_exit_shape in E. destruct e as [n o| | |]; try done.
    destruct E as (_ & -> & ->). eauto.
  - apply monologue_exit_shape in E. destruct e as [n o| | |]; try done.
    destruct E as (_ & -> & ->). eauto.
Qed.

(** Every outcome [step] returns has one of the statuses ["success"],
    ["no_message"], ["max_iterations"] and ["error"], and the iteration
    count it reports is at most 10. *)
Theorem step_outcome (self : MemGPTAgent) (user_message : option string)
    (o : Outcome) :
  fst (step self user_message) = Ok o ->
  (status o = "success" \/ status o = "no_message" \/
   status o = "max_iterations" \/ status o = "error") /\
  forall n, iterations o = Some n -> (n <= max_iterations)%nat.
Proof.
  unfold step.
  pose proof (heartbeat_exit_shape max_iterations 0 (enter self user_message)) as Hs.
  pose proof (heartbeat_completions max_iterations 0 (enter self user_message)) as Hc.
  destruct (heartbeat max_iterations 0 (enter self user_message)) as [e self'].
  cbn [fst] in *. destruct e as [n o'|n|n|n e]; cbn [fst completions] in *;
    intros Ho; simplify_eq.
  - split; [destruct Hs as [[?|[?|?]] _]; eauto |].
    intros k Hk. destruct Hs as [_ [Hi|Hi]]; rewrite Hi in Hk; simplify_eq. lia.
  - split; [eauto |]. intros k [= <-]. lia.
  - split; [eauto |]. intros k [= <-]. lia.
Qed.




(** After [reset] the executor still holds the working context it was
    constructed with: a [core_memory_append] made through it succeeds there,
    while [get_core_memory] shows the fresh default sections. *)
Theorem reset_detaches_core_memory (s : Session) (section current : string)
    (content : value) :
  CoreMemory.sections (FunctionExecutor.core_memory (function_executor (agent s)))
    !! section = Some current ->
  let s' := call (reset s) "core_memory_append"
              (VDict [("section", VStr section); ("content", content)]) in
  get_core_memory s' = CoreMemory.sections CoreMemory.init /\
  CoreMemory.sections (FunctionExecutor.core_memory (function_executor (agent s')))
    !! section = Some (current +:+ CoreMemory.nl +:+ format content) /\
  QueueManager.queue (queue_manager (agent s'))
  = QueueManager.queue (QueueManager.clear_queue (queue_manager (agent s)) true).
Proof.
  intros Hs s'. subst s'. unfold call, reset. cbn [agent rebound function_executor
    with_function_executor get_core_memory queue_manager].
  split; [done |]. split; [|done].
  unfold FunctionExecutor.execute. cbn -[String.append].
  unfold FunctionExecutor._core_memory_append, FunctionExecutor.core_memory_append,
    FunctionExecutor.arg.
  cbn -[String.append]. unfold CoreMemory.append. rewrite Hs.
  cbn -[String.append]. apply lookup_insert_eq.
Qed.

End Turn.

Lemma step_outcome_witness :
  (status {| status := "success"; message := VStr "hello";
             function := Some "send_message"; thought := None;
             iterations := Some 1%nat |} = "success" \/
   status {| status := "success"; message := VStr "hello";
             function := Some "send_message"; thought := None;
             iterations := Some 1%nat |} = "no_message" \/
   status {| status := "success"; message := VStr "hello";
             function := Some "send_message"; thought := None;
             iterations := Some 1%nat |} = "max_iterations" \/
   status {| status := "success"; message := VStr "hello";
             function := Some "send_message"; thought := None;
             iterations := Some 1%nat |} = "error") /\
  forall n,
    iterations {| status := "success"; message := VStr "hello";
                  function := Some "send_message"; thought := None;
                  iterations := Some 1%nat |} = Some n ->
    (n <= max_iterations)%nat.
Proof.
  apply (step_outcome (H := Runs.builtins) (Runs.agent Runs.says_hello) (Some "hi")).
  by vm_compute.
Defined.




Lemma reset_detaches_core_memory_witness :
  get_core_memory
    (call (H := Runs.builtins) (reset Runs.session) "core_memory_append"
       (VDict [("section", VStr "human"); ("content", VStr "name=Alice")]))
  = CoreMemory.sections CoreMemory.init.
Proof.
  apply (reset_detaches_core_memory (H := Runs.builtins) Runs.session "human"
           "No information about the user yet." (VStr "name=Alice")).
  reflexivity.
Defined.

Lemma dispatch_break_witness :
  "send_message" = "send_message" /\
  exists st msg out fe,
    FunctionExecutor.execute (H := Runs.builtins)
      (function_executor (Runs.agent Runs.bare_send_message)) "send_message" (VDict [])
    = (Ok (st, msg, out), fe) /\ st <> "success".
Proof.
  eapply (dispatch_break (H := Runs.builtins) (Runs.agent Runs.bare_send_message)
            _ 1 1 "send_message" (VDict [])).
  vm_compute. reflexivity.
Defined.

End MemGPTAgentExtra.
